(** * A Streamlit chat front-end: session state machine and its two API clients

    Shallow embedding of [appv2.py].  The script is re-executed by Streamlit
    once per user event; every run reads and mutates [st.session_state].  The
    remote completion services are modelled by an oracle that answers each
    call, given the calls answered so far. *)

From Stdlib Require Import String Ascii List Bool Arith Lia.
Import ListNotations.
Local Open Scope string_scope.
Local Open Scope list_scope.

(** ** Python strings

    A Python [str] is modelled as a [string] whose characters are the code
    points below 256. *)
Module PyStr.

Infix "+++" := String.append (at level 60, right associativity).

Definition nl : string := String "010"%char "".

(** [str.isspace] on one character, for the code points below 256:
    U+0009..U+000D, U+001C..U+0020, U+0085 and U+00A0. *)
Definition isspace (c : ascii) : bool :=
  let n := nat_of_ascii c in
  (((9 <=? n) && (n <=? 13)) || ((28 <=? n) && (n <=? 32))
   || (n =? 133) || (n =? 160))%nat.

(** [bool(s)]: a string is truthy when it is not empty. *)
Definition truthy (s : string) : bool :=
  match s with
  | EmptyString => false
  | String _ _ => true
  end.

Fixpoint lstrip (s : string) : string :=
  match s with
  | EmptyString => EmptyString
  | String c s' => if isspace c then lstrip s' else s
  end.

Fixpoint rstrip (s : string) : string :=
  match s with
  | EmptyString => EmptyString
  | String c s' =>
      match rstrip s' with
      | EmptyString => if isspace c then EmptyString else String c EmptyString
      | r => String c r
      end
  end.

(** [s.strip()] *)
Definition strip (s : string) : string := rstrip (lstrip s).

(** [s.startswith(p)] *)
Definition startswith (s p : string) : bool := String.prefix p s.

(** [sub in s] *)
Fixpoint contains (sub s : string) : bool :=
  String.prefix sub s ||
  match s with
  | EmptyString => false
  | String _ s' => contains sub s'
  end.

(** [s.split(sep)] for a non-empty [sep]: the pieces between the
    occurrences of [sep], found from left to right without overlap.  The
    result is the piece being read and the pieces after it; [skip] counts
    the characters of a separator still to be passed over. *)
Fixpoint split_from (sep : string) (skip : nat) (s : string)
  : string * list string :=
  match s with
  | EmptyString => (EmptyString, [])
  | String c s' =>
      match skip with
      | S k => split_from sep k s'
      | O =>
          if String.prefix sep s then
            let '(p, ps) := split_from sep (String.length sep - 1) s' in
            (EmptyString, p :: ps)
          else
            let '(p, ps) := split_from sep 0 s' in
            (String c p, ps)
      end
  end.

Definition split (s sep : string) : list string :=
  let '(p, ps) := split_from sep 0 s in p :: ps.

(** [sep.join(parts)] *)
Fixpoint join (sep : string) (parts : list string) : string :=
  match parts with
  | [] => EmptyString
  | [p] => p
  | p :: ps => p +++ sep +++ join sep ps
  end.

(** [s[n:]] *)
Fixpoint drop (n : nat) (s : string) : string :=
match n, s with
| O, _ => s
| S _, EmptyString => EmptyString
| S k, String _ s' => drop k s'
end.

End PyStr.
Import PyStr.

(** ** Data model *)

(** One entry of [st.session_state.messages]: the dict
    [{"role": ..., "content": ...}]. *)
Record message : Type := Message { role : string; content : string }.

(** [st.session_state]: an attribute is [None] until some run creates it. *)
Record session_state : Type := SessionState {
  messages : option (list message);
  conversation_ended : option bool;
  api_keys_provided : option bool;
  google_api_key : option string;
  openai_api_key : option string
}.

(** The store of a browser session that has not run the script yet. *)
Definition fresh : session_state := SessionState None None None None None.

Definition set_messages (v : list message) (s : session_state) :=
  SessionState (Some v) (conversation_ended s) (api_keys_provided s)
               (google_api_key s) (openai_api_key s).
Definition set_conversation_ended (v : bool) (s : session_state) :=
  SessionState (messages s) (Some v) (api_keys_provided s)
               (google_api_key s) (openai_api_key s).
Definition set_api_keys_provided (v : bool) (s : session_state) :=
  SessionState (messages s) (conversation_ended s) (Some v)
               (google_api_key s) (openai_api_key s).
Definition set_google_api_key (v : string) (s : session_state) :=
  SessionState (messages s) (conversation_ended s) (api_keys_provided s)
               (Some v) (openai_api_key s).
Definition set_openai_api_key (v : string) (s : session_state) :=
  SessionState (messages s) (conversation_ended s) (api_keys_provided s)
               (google_api_key s) (Some v).

(** ** The remote services *)

(** A request to a completion service: [GenerativeModel(model)
    .generate_content(prompt, safety_settings=...)] after
    [configure(api_key=...)], or the chain
    [prompt | ChatOpenAI(model, api_key) | StrOutputParser()] invoked on the
    formatted prompt. *)
Inductive Call : Type :=
| GenerateContent (api_key model prompt : string)
                  (safety_settings : list (string * string))
| ChatOpenAI (api_key model prompt : string).

(** What [response.text] gives on a response object. *)
Inductive accessor : Type :=
| Txt (s : string)
| NoText (err : string).   (* the accessor raises, with this [str(e)] *)

(** How a request ends: a response object, [InvalidArgument] raised, or any
    other [Exception] raised; [msg] is [str(e)]. *)
Inductive Reply : Type :=
| Response (text : accessor)
| InvalidArgument (msg : string)
| OtherException (msg : string).

(** What the script puts on the page during one run.  Page configuration,
    style sheet, titles, spinners and the static help text carry no state and
    are left out; [st_summary] is the summary heading with the summary under
    it, [st_sentiment] the sentiment heading with the face chosen at the
    [st.write] of the sentiment. *)
Inductive Face : Type := Smiling | Disappointed | NeutralFace.

Inductive Output : Type :=
| st_error (msg : string)
| st_warning (msg : string)
| st_success (msg : string)
| st_exception (msg : string)
| st_chat_message (role content : string)
| st_summary (summary : string)
| st_sentiment (face : Face) (sentiment : string).

(** The widget that triggered the run, with its value. *)
Inductive Event : Type :=
| NoEvent
| FormSubmit (google_key openai_key : string)
| ChatInput (prompt : string)
| EndConversation
| StartNewConversation.

Record World : Type := mkWorld {
  session : session_state;
  calls : list (Call * Reply);    (* requests answered so far, oldest first *)
  page : list Output
}.

(** ** Script monad: state, page output, and the three ways a run stops *)

Inductive Res (A : Type) : Type :=
| Ok (a : A)
| Rerun                       (* [st.rerun()] *)
| Raised (exn : string).      (* an exception nobody catches *)
Arguments Ok {A} a.
Arguments Rerun {A}.
Arguments Raised {A} exn.

Definition M (A : Type) : Type := World -> Res A * World.

Definition ret {A} (a : A) : M A := fun w => (Ok a, w).

Definition bind {A B} (m : M A) (k : A -> M B) : M B :=
  fun w =>
    match m w with
    | (Ok a, w') => k a w'
    | (Rerun, w') => (Rerun, w')
    | (Raised e, w') => (Raised e, w')
    end.

Notation "x <- m ;; k" := (bind m (fun x => k))
  (at level 61, m at next level, right associativity).
Notation "m ;; k" := (bind m (fun _ => k))
  (at level 61, right associativity).

(** [st.rerun()] raises a control-flow exception that derives from
    [BaseException]: no [except Exception] clause catches it. *)
Definition st_rerun {A} : M A := fun w => (Rerun, w).

Definition show (o : Output) : M unit :=
  fun w => (Ok tt, mkWorld (session w) (calls w) (page w ++ [o])).

Definition update (f : session_state -> session_state) : M unit :=
  fun w => (Ok tt, mkWorld (f (session w)) (calls w) (page w)).

(** Reading [st.session_state.<name>]. *)
Definition attr {A} (name : string) (f : session_state -> option A) : M A :=
  fun w =>
    match f (session w) with
    | Some a => (Ok a, w)
    | None =>
        (Raised ("AttributeError: st.session_state has no attribute " +++ name), w)
    end.

(** A loop whose body only writes to the page. *)
Definition show_each {A} (f : A -> Output) (l : list A) : M unit :=
  fun w => (Ok tt, mkWorld (session w) (calls w) (page w ++ map f l)).

(** The widgets: each yields a value only in the run its own event triggers. *)
Definition form_submit_button (ev : Event) : option (string * string) :=
  match ev with FormSubmit g o => Some (g, o) | _ => None end.
Definition chat_input (ev : Event) : option string :=
  match ev with ChatInput p => Some p | _ => None end.
Definition button_end (ev : Event) : bool :=
  match ev with EndConversation => true | _ => false end.
Definition button_new (ev : Event) : bool :=
  match ev with StartNewConversation => true | _ => false end.

(** Line 198: the face shown next to the sentiment. *)
Definition face_of (sentiment : string) : Face :=
  if contains "Positive" sentiment then Smiling
  else if contains "Negative" sentiment then Disappointed
  else NeutralFace.

(** Lines 44-47. *)
Definition format_message (msg : message) : string :=
  role msg +++ ": " +++ content msg.

Definition conversation_text (msgs : list message) : string :=
  join nl (map format_message msgs).

(** Lines 49-57: the template around [{conversation}]. *)
Definition summary_prompt (conversation : string) : string :=
  "Summarize this conversation in under 150 words. " +++ nl +++
  "        Also provide one-word sentiment (Positive/Negative/Neutral)." +++ nl +++
  "        " +++ nl +++
  "        Conversation:" +++ nl +++
  "        " +++ conversation +++ nl +++
  "        " +++ nl +++
  "        Summary:".

Definition gemini_model : string := "gemini-2.0-flash".
Definition openai_model : string := "gpt-3.5-turbo".
Definition marker : string := "Sentiment:".

(** ** The script *)

Section Script.

(** The remote side: the reply to a request, given the requests answered
    before it. *)
Variable remote : list (Call * Reply) -> Call -> Reply.

Definition invoke (c : Call) : M Reply :=
  fun w =>
    let r := remote (calls w) c in
    (Ok r, mkWorld (session w) (calls w ++ [(c, r)]) (page w)).

(** Lines 9-16. *)
Definition initialize_session_state : M unit :=
  update (fun s => match messages s with
                   | None => set_messages [] s
                   | Some _ => s
                   end) ;;
  update (fun s => match conversation_ended s with
                   | None => set_conversation_ended false s
                   | Some _ => s
                   end) ;;
  update (fun s => match api_keys_provided s with
                   | None => set_api_keys_provided false s
                   | Some _ => s
                   end).

(** Lines 18-22. *)
Definition display_chat_messages : M unit :=
  msgs <- attr "messages" messages ;;
  show_each (fun m => st_chat_message (role m) (content m)) msgs.

(** Lines 24-37.  The result is [None] or the text of the response. *)
Definition get_gemini_response (user_input api_key : string)
  : M (option string) :=
  r <- invoke (GenerateContent api_key gemini_model user_input []) ;;
  match r with
  | Response (Txt text) => ret (Some text)
  | InvalidArgument _ =>
      show (st_error "Invalid Google API Key. Please check your key and try again.") ;;
      update (set_api_keys_provided false) ;;
      ret None
  | Response (NoText e) | OtherException e =>
      show (st_error ("Error getting response from Gemini: " +++ e)) ;;
      ret None
  end.

(** Lines 39-77.  Unpacking [result.split("Sentiment:")] into two names
    raises [ValueError] unless there are exactly two pieces; the [except]
    clause of the function catches it like a failure of the request. *)
Definition generate_summary_and_sentiment (openai_key : string)
  : M (option string * option string) :=
  msgs <- attr "messages" messages ;;
  match msgs with
  | [] => ret (Some "No conversation to summarize", Some "Neutral")
  | _ :: _ =>
      let conversation := conversation_text msgs in
      r <- invoke (ChatOpenAI openai_key openai_model
                              (summary_prompt conversation)) ;;
      match r with
      | Response (Txt result) =>
          if contains marker result then
            match split result marker with
            | [summary; sentiment] =>
                let sentiment := strip sentiment in
                ret (Some (strip summary), Some (strip sentiment))
            | [] | [_] =>
                show (st_error ("Error generating summary: " +++
                                "not enough values to unpack (expected 2, got 1)")) ;;
                ret (None, None)
            | _ :: _ :: _ :: _ =>
                show (st_error ("Error generating summary: " +++
                                "too many values to unpack (expected 2)")) ;;
                ret (None, None)
            end
          else
            let summary := result in
            let sentiment := "Neutral" in
            ret (Some (strip summary), Some (strip sentiment))
      | Response (NoText e) | InvalidArgument e | OtherException e =>
          show (st_error ("Error generating summary: " +++ e)) ;;
          ret (None, None)
      end
  end.

(** Lines 79-125.  The two early [return]s are the first two branches. *)
Definition api_key_input_form (ev : Event) : M unit :=
  match form_submit_button ev with
  | Some (google_key, openai_key) =>
      if truthy (strip google_key) && truthy (strip openai_key) then
        if negb (startswith google_key "AIza") then
          show (st_error "Google API key should start with 'AIza'")
        else if negb (startswith openai_key "sk-") then
          show (st_error "OpenAI API key should start with 'sk-'")
        else
          r <- invoke (GenerateContent google_key gemini_model "Test"
                         [("HARM_CATEGORY_HARASSMENT", "block_none")]) ;;
          match r with
          | Response _ =>
              update (set_google_api_key (strip google_key)) ;;
              update (set_openai_api_key (strip openai_key)) ;;
              update (set_api_keys_provided true) ;;
              st_rerun
          | InvalidArgument e | OtherException e =>
              show (st_error ("API key verification failed: " +++ e))
          end
      else show (st_warning "Please provide both API keys")
  | None => ret tt
  end.

(** Lines 175-182: one chat turn.  [if response:] holds for a string that
    is not empty, and fails for [None] and for the empty string. *)
Definition chat_turn (prompt : string) : M unit :=
  msgs <- attr "messages" messages ;;
  update (set_messages (msgs ++ [Message "user" prompt])) ;;
  key <- attr "google_api_key" google_api_key ;;
  response <- get_gemini_response prompt key ;;
  (match response with
   | Some text =>
       if truthy text then
         msgs <- attr "messages" messages ;;
         update (set_messages (msgs ++ [Message "assistant" text]))
       else ret tt
   | None => ret tt
   end) ;;
  st_rerun.

(** Lines 190-203: the summary view. *)
Definition summary_view (ev : Event) : M unit :=
  show (st_success "Conversation ended. Generating summary...") ;;
  key <- attr "openai_api_key" openai_api_key ;;
  r <- generate_summary_and_sentiment key ;;
  (match r with
   | (Some summary, Some sentiment) =>
       if truthy summary && truthy sentiment then
         show (st_summary summary) ;;
         show (st_sentiment (face_of sentiment) sentiment)
       else ret tt
   | _ => ret tt
   end) ;;
  if button_new ev then
    update (set_messages []) ;;
    update (set_conversation_ended false) ;;
    st_rerun
  else ret tt.

(** Lines 127-203. *)
Definition main (ev : Event) : M unit :=
  initialize_session_state ;;
  provided <- attr "api_keys_provided" api_keys_provided ;;
  if negb provided then
    api_key_input_form ev
  else
    display_chat_messages ;;
    ended <- attr "conversation_ended" conversation_ended ;;
    (if negb ended then
       match chat_input ev with
       | Some prompt => if truthy prompt then chat_turn prompt else ret tt
       | None => ret tt
       end
     else ret tt) ;;
    ended <- attr "conversation_ended" conversation_ended ;;
    (if negb ended && button_end ev then
       update (set_conversation_ended true) ;;
       st_rerun
     else ret tt) ;;
    ended <- attr "conversation_ended" conversation_ended ;;
    if ended then summary_view ev else ret tt.

(** One run of the script on a cleared page. *)
Definition run_script (ev : Event) (w : World) : Res unit * World :=
  main ev (mkWorld (session w) (calls w) []).

(** What one user event does: the run it triggers and, when that run asks
    for it, the run that follows with no widget triggered.  An uncaught
    exception ends the run and is shown on the page. *)
Definition finish (r : Res unit * World) : World :=
  match r with
  | (Raised e, w) => mkWorld (session w) (calls w) (page w ++ [st_exception e])
  | (_, w) => w
  end.

Definition handle (ev : Event) (w : World) : World :=
  match run_script ev w with
  | (Rerun, w') => finish (run_script NoEvent w')
  | r => finish r
  end.

Definition handle_all (evs : list Event) (w : World) : World :=
  fold_left (fun w ev => handle ev w) evs w.

Definition start : World := mkWorld fresh [] [].

Inductive reachable : World -> Prop :=
| reach_start : reachable start
| reach_handle ev w : reachable w -> reachable (handle ev w).

End Script.

(** ** Vocabulary of the properties *)

(** Chat input is taken only in this state. *)
Definition gated (s : session_state) : Prop :=
  api_keys_provided s = Some true /\ conversation_ended s = Some false.

(** The replies to a chat request, by class: a text that is not empty, an
    invalid credential ([AuthError]), any other failure
    ([TransientRemoteError]). *)
Definition answered (r : Reply) : bool :=
  match r with
  | Response (Txt text) => truthy text
  | _ => false
  end.

Definition auth_error (r : Reply) : bool :=
  match r with
  | InvalidArgument _ => true
  | _ => false
  end.

Definition transient_error (r : Reply) : bool :=
  match r with
  | Response (NoText _) | OtherException _ => true
  | _ => false
  end.

(** What one answered request leaves in the history. *)
Definition turn (cr : Call * Reply) : list message :=
  match cr with
  | (GenerateContent _ _ prompt _, Response (Txt text)) =>
      if truthy text
      then [Message "user" prompt; Message "assistant" text]
      else [Message "user" prompt]
  | (GenerateContent _ _ prompt _, _) => [Message "user" prompt]
  | (ChatOpenAI _ _ _, _) => []
  end.

Definition probe (google_key : string) : Call :=
  GenerateContent google_key gemini_model "Test"
                  [("HARM_CATEGORY_HARASSMENT", "block_none")].

Definition chat_request (google_key prompt : string) : Call :=
  GenerateContent google_key gemini_model prompt [].

Definition summary_request (openai_key : string) (msgs : list message) : Call :=
  ChatOpenAI openai_key openai_model (summary_prompt (conversation_text msgs)).


(** A text that does not begin with white space. *)
Definition trimmed_left (s : string) : Prop :=
  match s with
  | EmptyString => True
  | String c _ => isspace c = false
  end.

Definition sentiment_enumeration : list string := ["Positive"; "Negative"; "Neutral"].

(** What the summary function makes of a reply: the branches of lines 65-77
    without the page. *)
Definition parse_reply (r : Reply) : option string * option string :=
  match r with
  | Response (Txt result) =>
      if contains marker result then
        match split result marker with
        | [summary; sentiment] => (Some (strip summary), Some (strip sentiment))
        | _ => (None, None)
        end
      else (Some (strip result), Some "Neutral")
  | _ => (None, None)
  end.

(** The parsing contract in the words of the specification: the text before
    the marker and the text after it, both trimmed, or the whole text and
    "Neutral" when there is no marker.  "The marker" is its first
    occurrence. *)
Fixpoint partition (sep s : string) : option (string * string) :=
  if String.prefix sep s then Some (EmptyString, drop (String.length sep) s)
  else match s with
       | EmptyString => None
       | String c s' =>
           match partition sep s' with
           | Some (before, after) => Some (String c before, after)
           | None => None
           end
       end.

Definition parsing_contract (result : string) : string * string :=
  match partition marker result with
  | Some (before, after) => (strip before, strip after)
  | None => (strip result, "Neutral")
  end.

(** The session as the credential form finds it. *)
Definition ungated_world h gk ok cs pg : World :=
  mkWorld (SessionState (Some h) (Some false) (Some false) gk ok) cs pg.

(** The state invariant: the store is untouched, or the three flags exist,
    the keys are stored whenever [api_keys_provided] holds, and a
    conversation only ends once the keys are provided. *)
Definition wf (s : session_state) : Prop :=
  s = fresh \/
  exists h e b,
    messages s = Some h /\ conversation_ended s = Some e /\
    api_keys_provided s = Some b /\
    (b = true -> exists g o, google_api_key s = Some g /\ openai_api_key s = Some o) /\
    (e = true -> b = true).

(** ** Remote services and sessions to try the properties on *)

Definition always (text : string) : list (Call * Reply) -> Call -> Reply :=
  fun _ _ => Response (Txt text).

Definition hello : list (Call * Reply) -> Call -> Reply := always "Hi!".

Definition silent : list (Call * Reply) -> Call -> Reply := always "".

Definition mixed : list (Call * Reply) -> Call -> Reply :=
  always "Fine. Sentiment: Mixed".

Definition twice : string := "Good talk. Sentiment: Positive. Sentiment: Negative".

Definition rejecting : list (Call * Reply) -> Call -> Reply :=
  fun _ _ => InvalidArgument "400 API key not valid".

(** The third request fails, the others are answered. *)
Definition flaky : list (Call * Reply) -> Call -> Reply :=
  fun cs _ => if Nat.eqb (List.length cs) 2 then OtherException "503 unavailable"
              else Response (Txt "Hi!").

Definition hi_hello : list message :=
  [Message "user" "hi"; Message "assistant" "hello"].

Definition idle_world : World :=
  mkWorld (SessionState (Some []) (Some true) (Some true)
                        (Some "AIza_valid") (Some "sk-valid")) [] [].

Definition ended_world : World :=
  mkWorld (SessionState (Some hi_hello) (Some true) (Some true)
                        (Some "AIza_valid") (Some "sk-valid")) [] [].

Definition form_world : World := handle hello NoEvent start.

Definition chat_world : World :=
  handle hello (FormSubmit "AIza_valid" "sk-valid") form_world.

Definition closed_world : World :=
  handle hello EndConversation (handle hello (ChatInput "Hello") chat_world).

Definition flaky_world : World :=
  handle_all flaky [NoEvent; FormSubmit "AIza_valid" "sk-valid"] start.

Definition silent_world : World :=
  handle_all silent [NoEvent; FormSubmit "AIza_valid" "sk-valid"] start.

(** ** Vocabulary of the further properties *)

(** The page of the chat: the history, message by message. *)
Definition chat_page (h : list message) : list Output :=
  map (fun m => st_chat_message (role m) (content m)) h.

(** The session in the chat and in the ended state. *)
Definition chat_state_world h g o cs pg : World :=
  mkWorld (SessionState (Some h) (Some false) (Some true) (Some g) (Some o)) cs pg.

Definition ended_state_world h g o cs pg : World :=
  mkWorld (SessionState (Some h) (Some true) (Some true) (Some g) (Some o)) cs pg.

(** What the summary function writes on the page for a reply, and what
    the summary view shows for its result: the branches of lines 65-77 and
    194-198. *)
Definition summary_errors (r : Reply) : list Output :=
  match r with
  | Response (Txt result) =>
      if contains marker result then
        match split result marker with
        | [_; _] => []
        | [] | [_] =>
            [st_error ("Error generating summary: " +++
                       "not enough values to unpack (expected 2, got 1)")]
        | _ :: _ :: _ :: _ =>
            [st_error ("Error generating summary: " +++
                       "too many values to unpack (expected 2)")]
        end
      else []
  | Response (NoText e) | InvalidArgument e | OtherException e =>
      [st_error ("Error generating summary: " +++ e)]
  end.

Definition summary_display (r : option string * option string) : list Output :=
  match r with
  | (Some summary, Some sentiment) =>
      if truthy summary && truthy sentiment
      then [st_summary summary; st_sentiment (face_of sentiment) sentiment]
      else []
  | _ => []
  end.

Definition ended_banner : Output := st_success "Conversation ended. Generating summary...".

(** A message as the chat appends them. *)
Definition well_formed_message (m : message) : Prop :=
  (role m = "user" \/ role m = "assistant") /\ truthy (content m) = true.

Definition no_exception (pg : list Output) : Prop :=
  forall e, ~ In (st_exception e) pg.

(** What any event does, whatever the state: the log grows by at most one
    request, the history grows by well-formed messages or is emptied by
    "Start New Conversation", and no exception reaches the page. *)
Definition step_summary_of (ev : Event) (w w' : World) : Prop :=
  let h := match messages (session w) with Some h => h | None => [] end in
  exists new suffix,
    calls w' = calls w ++ new
    /\ List.length new <= 1
    /\ Forall well_formed_message suffix
    /\ (messages (session w') = Some (h ++ suffix)
        \/ (ev = StartNewConversation
            /\ conversation_ended (session w) = Some true
            /\ messages (session w') = Some []))
    /\ no_exception (page w').

(** A text without white space. *)
Fixpoint spaceless (s : string) : bool :=
  match s with
  | EmptyString => true
  | String c s' => negb (isspace c) && spaceless s'
  end.

(** More remote services and sessions to try the properties on: a chat
    reply and a summary reply, a whole conversation up to its end. *)
Definition service (chat summary : Reply) : list (Call * Reply) -> Call -> Reply :=
  fun _ c =>
    match c with
    | GenerateContent _ _ _ _ => chat
    | ChatOpenAI _ _ _ => summary
    end.

Definition story : list Event :=
  [NoEvent; FormSubmit "AIza_valid" "sk-valid"; ChatInput "Hello"; EndConversation].

Definition told (remote : list (Call * Reply) -> Call -> Reply) : World :=
  handle_all remote story start.

Definition summary_down : list (Call * Reply) -> Call -> Reply :=
  service (Response (Txt "Hi!")) (OtherException "503 unavailable").

Definition plain : list (Call * Reply) -> Call -> Reply :=
  service (Response (Txt "Hi!")) (Response (Txt " They greeted each other. ")).

Definition labelled : list (Call * Reply) -> Call -> Reply :=
  service (Response (Txt "Hi!"))
          (Response (Txt "They greeted each other. Sentiment: Positive")).

Definition talk_world : World := handle hello (ChatInput "Hello") chat_world.

Definition empty_closed_world : World := handle hello EndConversation chat_world.

Definition flaky_talk_world : World := handle flaky (ChatInput "Hello") flaky_world.

Definition greeting : list message :=
  [Message "user" "Hello"; Message "assistant" "Hi!"].

(** ** Tactics *)

Ltac break_match :=
  match goal with
  | |- context [match ?x with _ => _ end] =>
      lazymatch x with
      | context [match _ with _ => _ end] => fail
      | _ => destruct x eqn:?
      end
  end.

(** Evaluates the monad and the store, and leaves the strings alone. *)
Ltac run :=
  cbv [bind ret show show_each update attr st_rerun invoke
       session calls page messages conversation_ended api_keys_provided
       google_api_key openai_api_key
       set_messages set_conversation_ended set_api_keys_provided
       set_google_api_key set_openai_api_key
       form_submit_button chat_input button_end button_new
       negb andb fst snd].

Ltac unfold_main :=
  unfold handle, run_script, main, summary_view, chat_turn,
    api_key_input_form, get_gemini_response, display_chat_messages,
    initialize_session_state, finish.

Ltac solve_wf :=
  right; do 3 eexists; repeat split;
  first [ reflexivity | intros; first [discriminate | eauto] ].

(** ** Facts about the string operations *)

Example split_two : split "a, b, c" ", " = ["a"; "b"; "c"].
Proof. reflexivity. Qed.
Example split_adjacent : split "xSentiment:Sentiment:" "Sentiment:" = ["x"; ""; ""].
Proof. reflexivity. Qed.
Example split_overlap : split "aaa" "aa" = [""; "a"].
Proof. reflexivity. Qed.
Example strip_both : strip "  hi there
 " = "hi there".
Proof. reflexivity. Qed.

Lemma prefix_nil s : String.prefix EmptyString s = true.
Proof. destruct s; reflexivity. Qed.

Lemma prefix_length sep s : String.prefix sep s = true -> String.length sep <= String.length s.
Proof.
  revert sep; induction s as [|c s IH]; intros [|a sep]; simpl; try lia; try discriminate.
  destruct (ascii_dec a c); [|discriminate]. intros H. apply IH in H. lia.
Qed.

Lemma prefix_drop sep s :
  String.prefix sep s = true -> s = sep +++ drop (String.length sep) s.
Proof.
  revert sep; induction s as [|c s IH]; intros [|a sep]; simpl; try reflexivity; try discriminate.
  destruct (ascii_dec a c) as [->|]; [|discriminate].
  intros H. f_equal. apply IH, H.
Qed.

Lemma join_cons_char sep c p ps :
  join sep (String c p :: ps) = String c (join sep (p :: ps)).
Proof. destruct ps; reflexivity. Qed.

Lemma join_cons_cons sep a b l :
  join sep (a :: b :: l) = a +++ sep +++ join sep (b :: l).
Proof. reflexivity. Qed.

Lemma join_split_from sep s :
  sep <> EmptyString ->
  forall skip, skip <= String.length s ->
    join sep (fst (split_from sep skip s) :: snd (split_from sep skip s)) = drop skip s.
Proof.
  intros Hsep. induction s as [|c s IH]; intros skip Hskip.
  - destruct skip; [reflexivity | simpl in Hskip; lia].
  - destruct skip as [|k].
    + cbn [split_from drop].
      destruct (String.prefix sep (String c s)) eqn:Hp.
      * pose proof (prefix_length _ _ Hp) as Hl.
        pose proof (prefix_drop _ _ Hp) as Hd.
        destruct sep as [|a sep]; [congruence|].
        cbn [String.length] in *. rewrite Nat.sub_succ, Nat.sub_0_r.
        cbn [drop] in Hd.
        specialize (IH (String.length sep) ltac:(lia)).
        destruct (split_from (String a sep) (String.length sep) s) as [p ps].
        cbn [fst snd] in *. rewrite join_cons_cons, IH.
        exact (eq_sym Hd).
      * specialize (IH 0 ltac:(lia)).
        destruct (split_from sep 0 s) as [p ps]. cbn [fst snd] in *.
        rewrite join_cons_char, IH. reflexivity.
    + cbn [split_from drop]. apply IH. simpl in Hskip. lia.
Qed.

(** Joining the pieces of a split with the separator gives the text back. *)
Lemma join_split sep s : sep <> EmptyString -> join sep (split s sep) = s.
Proof.
  intros Hsep. unfold split.
  pose proof (join_split_from sep s Hsep 0 ltac:(lia)) as H.
  destruct (split_from sep 0 s) as [p ps]. exact H.
Qed.

Lemma split_two_pieces s sep a b :
  sep <> EmptyString -> split s sep = [a; b] -> s = a +++ sep +++ b.
Proof.
  intros Hsep H. rewrite <- (join_split sep s Hsep), H. reflexivity.
Qed.


(** *** Lines *)






(** *** Trimming *)

Lemma rstrip_idempotent s : rstrip (rstrip s) = rstrip s.
Proof.
  induction s as [|c s IH]; [reflexivity|].
  cbn [rstrip]. destruct (rstrip s) as [|d r] eqn:HR.
  - destruct (isspace c) eqn:Hc; [reflexivity|].
    cbn [rstrip]. rewrite Hc. reflexivity.
  - cbn [rstrip]. cbn [rstrip] in IH. 
    destruct (rstrip r) as [|d' r'] eqn:HR'.
    + destruct (isspace d) eqn:Hd; [discriminate IH|].
      rewrite IH. reflexivity.
    + rewrite IH. reflexivity.
Qed.

Lemma lstrip_trimmed s : trimmed_left (lstrip s).
Proof.
  induction s as [|c s IH]; cbn [lstrip]; [exact I|].
  destruct (isspace c) eqn:Hc; [exact IH | exact Hc].
Qed.

Lemma lstrip_fixed s : trimmed_left s -> lstrip s = s.
Proof. destruct s as [|c s]; cbn; [reflexivity|]. intros ->. reflexivity. Qed.

Lemma rstrip_trimmed s : trimmed_left s -> trimmed_left (rstrip s).
Proof.
  destruct s as [|c s]; cbn [rstrip trimmed_left]; [trivial|].
  intros Hc. destruct (rstrip s); [rewrite Hc|]; exact Hc.
Qed.

Lemma strip_idempotent s : strip (strip s) = strip s.
Proof.
  unfold strip.
  rewrite (lstrip_fixed (rstrip (lstrip s))).
  - apply rstrip_idempotent.
  - apply rstrip_trimmed, lstrip_trimmed.
Qed.

Lemma split_from_drop sep s : forall k,
  split_from sep k s = split_from sep 0 (drop k s).
Proof.
  induction s as [|c s IH]; intros [|k]; try reflexivity.
  cbn [split_from drop]. apply IH.
Qed.

Lemma split_from_partition sep s :
  sep <> EmptyString ->
  split_from sep 0 s
  = match partition sep s with
    | None => (s, [])
    | Some (before, after) => (before, split after sep)
    end.
Proof.
  intros Hsep. destruct sep as [|a sep]; [congruence|]. clear Hsep.
  induction s as [|c s IH]; [reflexivity|].
  cbn [split_from partition].
  destruct (String.prefix (String a sep) (String c s)).
  - cbn [String.length drop]. rewrite Nat.sub_succ, Nat.sub_0_r.
    rewrite split_from_drop. unfold split.
    destruct (split_from (String a sep) 0 (drop (String.length sep) s)); reflexivity.
  - rewrite IH. destruct (partition (String a sep) s) as [[before after]|]; reflexivity.
Qed.

Lemma contains_partition sep s :
  contains sep s = match partition sep s with Some _ => true | None => false end.
Proof.
  induction s as [|c s IH].
  - destruct sep; reflexivity.
  - cbn [contains partition]. destruct (String.prefix sep (String c s)); [reflexivity|].
    rewrite IH. cbn [orb]. destruct (partition sep s) as [[? ?]|]; reflexivity.
Qed.

Lemma split_contains sep s :
  sep <> EmptyString -> contains sep s = true ->
  exists before piece pieces, split s sep = before :: piece :: pieces.
Proof.
  intros Hsep Hc. rewrite contains_partition in Hc.
  unfold split. rewrite split_from_partition by exact Hsep.
  destruct (partition sep s) as [[before after]|]; [|discriminate Hc].
  unfold split. destruct (split_from sep 0 after) as [p ps].
  exists before, p, ps. reflexivity.
Qed.

(** With at most one marker in the reply the code follows the contract. *)
Lemma parse_follows_contract result :
  match partition marker result with
  | Some (_, after) => contains marker after = false
  | None => True
  end ->
  parse_reply (Response (Txt result))
  = (Some (fst (parsing_contract result)), Some (snd (parsing_contract result))).
Proof.
  intros H. unfold parse_reply, parsing_contract.
  rewrite contains_partition. unfold split.
  rewrite split_from_partition by discriminate.
  destruct (partition marker result) as [[before after]|]; [|reflexivity].
  unfold split. rewrite split_from_partition by discriminate.
  rewrite contains_partition in H.
  destruct (partition marker after) as [[? ?]|]; [discriminate H | reflexivity].
Qed.

(** With a second marker after the first the code gives no result. *)
Lemma parse_fails_on_second_marker result before after :
  partition marker result = Some (before, after) ->
  contains marker after = true ->
  parse_reply (Response (Txt result)) = (None, None)
  /\ parsing_contract result = (strip before, strip after).
Proof.
  intros Hp Hc. unfold parse_reply, parsing_contract.
  rewrite contains_partition, Hp. split; [|reflexivity].
  unfold split. rewrite split_from_partition, Hp by discriminate.
  destruct (split_contains marker after ltac:(discriminate) Hc)
    as (b' & piece & pieces & ->).
  reflexivity.
Qed.

(** ** Frames and transitions *)

Section Frames.

Variable remote : list (Call * Reply) -> Call -> Reply.

(** The summary request never touches the session. *)
Lemma generate_summary_frame key w h :
  messages (session w) = Some h ->
  exists r cs pg,
    generate_summary_and_sentiment remote key w
    = (Ok r, mkWorld (session w) cs pg).
Proof.
  intros Hm. unfold generate_summary_and_sentiment.
  unfold attr at 1. unfold bind at 1. rewrite Hm.
  destruct h as [|m ms]; [destruct w; run; eauto|].
  run. repeat (break_match; run); eauto.
Qed.

End Frames.

Ltac step_summary :=
match goal with
| |- context [generate_summary_and_sentiment ?rem ?k ?w] =>
    let H := fresh "Hsum" in
    destruct (generate_summary_frame rem k w _ eq_refl) as (? & ? & ? & H);
    cbv [session] in H; rewrite H; clear H
end.

Section Transitions.

Variable remote : list (Call * Reply) -> Call -> Reply.

Lemma handle_wf ev w : wf (session w) -> wf (session (handle remote ev w)).
Proof.
  destruct w as [[ms en pr gk ok] cs pg]. unfold wf. cbn [session].
  intros [Hf | (h & e & b & Hm & He & Hb & Hk & Heb)].
  - inversion Hf; subst.
    destruct ev; unfold_main; run;
      repeat (first [step_summary | break_match]; run); solve_wf.
  - cbn in Hm, He, Hb, Hk. subst ms en pr.
    destruct b.
    + destruct Hk as (g & o & -> & ->); [reflexivity|].
      destruct e, ev; unfold_main; run;
        repeat (first [step_summary | break_match]; run); solve_wf.
    + destruct e; [discriminate (Heb eq_refl)|].
      destruct ev; unfold_main; run;
        repeat (first [step_summary | break_match]; run); solve_wf.
Qed.

Lemma reachable_wf w : reachable remote w -> wf (session w).
Proof.
  induction 1 as [|ev w _ IH].
  - left; reflexivity.
  - apply handle_wf, IH.
Qed.

(** *** What one event does to the session and to the request log *)

Lemma handle_chat_gated p h g ok cs pg :
  truthy p = true ->
  let r := remote cs (chat_request g p) in
  exists pg',
    handle remote (ChatInput p)
      (mkWorld (SessionState (Some h) (Some false) (Some true) (Some g) ok) cs pg)
    = mkWorld (SessionState (Some (h ++ turn (chat_request g p, r)))
                            (Some false) (Some (negb (auth_error r)))
                            (Some g) ok)
              (cs ++ [(chat_request g p, r)]) pg'.
Proof.
  intros Hp r. subst r. unfold chat_request, turn.
  unfold_main; run. rewrite Hp.
  run. destruct (remote cs (GenerateContent g gemini_model p [])) as [[t|e]|e|e];
    run; try destruct (truthy t); run;
    rewrite <- ?app_assoc; cbn [app auth_error negb]; eauto.
Qed.

Lemma handle_chat_blank h g ok cs pg :
  exists pg',
    handle remote (ChatInput "")
      (mkWorld (SessionState (Some h) (Some false) (Some true) (Some g) ok) cs pg)
    = mkWorld (SessionState (Some h) (Some false) (Some true) (Some g) ok) cs pg'.
Proof. unfold_main; run. cbn [truthy]. run. eauto. Qed.

Lemma handle_chat_ungated p h e gk ok cs pg :
  handle remote (ChatInput p)
    (mkWorld (SessionState (Some h) (Some e) (Some false) gk ok) cs pg)
  = mkWorld (SessionState (Some h) (Some e) (Some false) gk ok) cs [].
Proof. unfold_main; run. reflexivity. Qed.

Lemma handle_start_new h g o cs pg :
  exists cs' pg',
    handle remote StartNewConversation
      (mkWorld (SessionState (Some h) (Some true) (Some true) (Some g) (Some o)) cs pg)
    = mkWorld (SessionState (Some []) (Some false) (Some true) (Some g) (Some o))
              cs' pg'.
Proof.
  unfold_main; run. step_summary. run.
  repeat (break_match; run); eauto.
Qed.

(** A run that no widget triggered never asks for another run: the second
    run of [handle] is the last. *)
Lemma rerun_settles w : fst (run_script remote NoEvent w) <> Rerun.
Proof.
  destruct w as [[[h|] [e|] [b|] gk ok] cs pg];
    unfold run_script, main, summary_view, api_key_input_form,
      display_chat_messages, initialize_session_state; run;
    repeat (first [step_summary | break_match]; run); discriminate.
Qed.

End Transitions.

Section Summary.

Variable remote : list (Call * Reply) -> Call -> Reply.

Lemma generate_summary_nonempty key w m ms :
  messages (session w) = Some (m :: ms) ->
  let c := summary_request key (m :: ms) in
  let r := remote (calls w) c in
  exists out,
    generate_summary_and_sentiment remote key w
    = (Ok (parse_reply r),
       mkWorld (session w) (calls w ++ [(c, r)]) (page w ++ out)).
Proof.
  intros Hm c r. subst c r. unfold summary_request, parse_reply.
  unfold generate_summary_and_sentiment.
  unfold attr at 1. unfold bind at 1. rewrite Hm. run.
  destruct (remote _ _) as [[result|e]|e|e]; run; eauto.
  destruct (contains marker result).
  - destruct (split result marker) as [|a [|b [|x l]]]; run; eauto.
    rewrite strip_idempotent. exists []. rewrite app_nil_r. reflexivity.
  - exists []. rewrite app_nil_r. reflexivity.
Qed.

(** With at most one marker in the reply the summary function returns what
    the contract says. *)
Lemma summary_follows_contract key w m ms result :
  messages (session w) = Some (m :: ms) ->
  remote (calls w) (summary_request key (m :: ms)) = Response (Txt result) ->
  match partition marker result with
  | Some (_, after) => contains marker after = false
  | None => True
  end ->
  fst (generate_summary_and_sentiment remote key w)
  = Ok (Some (fst (parsing_contract result)), Some (snd (parsing_contract result))).
Proof.
  intros Hm Hr Hone.
  destruct (generate_summary_nonempty key w m ms Hm) as [out ->].
  cbn [fst]. rewrite Hr, (parse_follows_contract result Hone). reflexivity.
Qed.

(** With a second marker after the first it returns [(None, None)]. *)
Lemma summary_fails_on_second_marker key w m ms result before after :
  messages (session w) = Some (m :: ms) ->
  remote (calls w) (summary_request key (m :: ms)) = Response (Txt result) ->
  partition marker result = Some (before, after) ->
  contains marker after = true ->
  fst (generate_summary_and_sentiment remote key w) = Ok (None, None).
Proof.
  intros Hm Hr Hp Hc.
  destruct (generate_summary_nonempty key w m ms Hm) as [out ->].
  cbn [fst]. rewrite Hr.
  destruct (parse_fails_on_second_marker result before after Hp Hc) as [-> _].
  reflexivity.
Qed.

End Summary.


Section Form.

Variable remote : list (Call * Reply) -> Call -> Reply.

Lemma reachable_ungated w :
  reachable remote w -> api_keys_provided (session w) = Some false ->
  exists h gk ok, w = ungated_world h gk ok (calls w) (page w).
Proof.
  intros Hr Hb. apply reachable_wf in Hr.
  destruct w as [[ms en pr gk ok] cs pg]. cbn in Hb. subst pr.
  destruct Hr as [Hf | (h & e & b & Hm & He & Hb & _ & Heb)]; [discriminate Hf|].
  cbn in Hm, He, Hb. inversion Hb; subst b. subst ms en.
  destruct e; [discriminate (Heb eq_refl)|].
  exists h, gk, ok. reflexivity.
Qed.

Lemma handle_form_blank g o h gk ok cs pg :
  truthy (strip g) && truthy (strip o) = false ->
  handle remote (FormSubmit g o) (ungated_world h gk ok cs pg)
  = ungated_world h gk ok cs [st_warning "Please provide both API keys"].
Proof.
  intros H. cbv [andb] in H. unfold ungated_world.
  unfold_main; run. rewrite H. run. reflexivity.
Qed.

Lemma handle_form_google_prefix g o h gk ok cs pg :
  truthy (strip g) && truthy (strip o) = true ->
  startswith g "AIza" = false ->
  handle remote (FormSubmit g o) (ungated_world h gk ok cs pg)
  = ungated_world h gk ok cs [st_error "Google API key should start with 'AIza'"].
Proof.
  intros H Hg. cbv [andb] in H. unfold ungated_world. unfold_main; run.
  rewrite H, Hg. run. reflexivity.
Qed.

Lemma handle_form_openai_prefix g o h gk ok cs pg :
  truthy (strip g) && truthy (strip o) = true ->
  startswith g "AIza" = true ->
  startswith o "sk-" = false ->
  handle remote (FormSubmit g o) (ungated_world h gk ok cs pg)
  = ungated_world h gk ok cs [st_error "OpenAI API key should start with 'sk-'"].
Proof.
  intros H Hg Ho. cbv [andb] in H. unfold ungated_world. unfold_main; run.
  rewrite H, Hg, Ho. run. reflexivity.
Qed.

Lemma handle_form_rejected g o h gk ok cs pg e :
  truthy (strip g) && truthy (strip o) = true ->
  startswith g "AIza" = true ->
  startswith o "sk-" = true ->
  remote cs (probe g) = InvalidArgument e \/ remote cs (probe g) = OtherException e ->
  handle remote (FormSubmit g o) (ungated_world h gk ok cs pg)
  = ungated_world h gk ok (cs ++ [(probe g, remote cs (probe g))])
      [st_error ("API key verification failed: " +++ e)].
Proof.
  intros H Hg Ho Hr. cbv [andb] in H. unfold ungated_world, probe in *.
  unfold_main; run. rewrite H, Hg, Ho. run.
  destruct Hr as [-> | ->]; run; reflexivity.
Qed.


Lemma form_refuses_google_key w g o :
  reachable remote w ->
  api_keys_provided (session w) = Some false ->
  truthy (strip g) && truthy (strip o) = true ->
  startswith g "AIza" = false ->
  handle remote (FormSubmit g o) w
  = mkWorld (session w) (calls w)
            [st_error "Google API key should start with 'AIza'"].
Proof.
  intros Hr Hb Hk Hg.
  destruct (reachable_ungated w Hr Hb) as (h & gk & ok & Hw).
  rewrite Hw at 1. rewrite handle_form_google_prefix by assumption.
  rewrite Hw at 2. reflexivity.
Qed.

End Form.

(** The sends of a sequence happen one after the other. *)
Lemma handle_all_snoc remote evs ev w :
  handle_all remote (evs ++ [ev]) w = handle remote ev (handle_all remote evs w).
Proof. unfold handle_all. rewrite fold_left_app. reflexivity. Qed.

(** *** The sample sessions can arise *)

Lemma form_world_reachable remote : reachable remote (handle remote NoEvent (start)).
Proof. apply reach_handle, reach_start. Qed.

Lemma closed_world_reachable : reachable hello closed_world.
Proof. repeat apply reach_handle. apply reach_start. Qed.

Lemma flaky_world_reachable : reachable flaky flaky_world.
Proof. repeat apply reach_handle. apply reach_start. Qed.

Example scenario :
  let w := handle_all hello
             [NoEvent; FormSubmit "AIza_valid" "sk-valid"; ChatInput "Hello"]
             start in
  session w = SessionState
                (Some [Message "user" "Hello"; Message "assistant" "Hi!"])
                (Some false) (Some true) (Some "AIza_valid") (Some "sk-valid")
  /\ calls w = [(probe "AIza_valid", Response (Txt "Hi!"));
                (chat_request "AIza_valid" "Hello", Response (Txt "Hi!"))].
Proof. vm_compute. split; reflexivity. Qed.

Example flaky_history :
  messages (session (handle_all flaky
                       (map ChatInput ["Hello"; "Are you there?"; "Hello?"])
                       flaky_world))
  = Some [Message "user" "Hello"; Message "assistant" "Hi!";
          Message "user" "Are you there?";
          Message "user" "Hello?"; Message "assistant" "Hi!"].
Proof. vm_compute. reflexivity. Qed.

(** ** The properties *)

(** *** C1: growth of the history per chat turn *)

(** C1, as the code has it.  Take any sequence of chat inputs and the
    send that comes after it, made while the session is gated, with a prompt
    that is not empty.  The send makes exactly one request, with the prompt
    alone.  When the reply carries a text that is not empty, the history is
    the old one followed by the user message and then the assistant message:
    exactly two more.  When the request fails with a transient error, or is
    answered with an empty text, the history is the old one followed by the
    user message: exactly one more.  In each of these cases the session
    stays gated, so the next send of the sequence is taken too. *)
Theorem history_growth_per_send remote w before p h k :
  let wi := handle_all remote (map ChatInput before) w in
  let wi' := handle_all remote (map ChatInput (before ++ [p])) w in
  let r := remote (calls wi) (chat_request k p) in
  gated (session wi) ->
  messages (session wi) = Some h ->
  google_api_key (session wi) = Some k ->
  truthy p = true ->
  calls wi' = calls wi ++ [(chat_request k p, r)]
  /\ (forall t, r = Response (Txt t) -> truthy t = true ->
      messages (session wi')
      = Some (h ++ [Message "user" p; Message "assistant" t])
      /\ gated (session wi'))
  /\ (transient_error r = true ->
      messages (session wi') = Some (h ++ [Message "user" p])
      /\ gated (session wi'))
  /\ (r = Response (Txt "") ->
      messages (session wi') = Some (h ++ [Message "user" p])
      /\ gated (session wi')).
Proof.
  intros wi wi' r [Hb He] Hm Hk Hp. subst wi'.
  rewrite map_app. cbn [map]. rewrite handle_all_snoc. fold wi.
  subst r. destruct wi as [[ms en pr gk ok] cs pg].
  cbn [session calls messages conversation_ended api_keys_provided google_api_key]
    in Hb, He, Hm, Hk |- *. subst ms en pr gk.
  destruct (handle_chat_gated remote p h k ok cs pg Hp) as [pg' ->].
  unfold gated.
  cbn [session calls messages conversation_ended api_keys_provided].
  split; [reflexivity|].
  destruct (remote cs (chat_request k p)) as [[t|e]|e|e];
    cbn [turn chat_request auth_error negb transient_error];
    (split; [intros t' Ht' Ht | split; [intros Ht' | intros Ht']]);
    try discriminate Ht'; try (repeat split; reflexivity).
  - inversion Ht'; subst t'. rewrite Ht. repeat split; reflexivity.
  - inversion Ht'; subst t. repeat split; reflexivity.
Qed.

Lemma history_growth_witness :
  (calls (handle_all flaky (map ChatInput ([] ++ ["Hello"])) flaky_world)
   = calls flaky_world ++ [(chat_request "AIza_valid" "Hello", Response (Txt "Hi!"))]
   /\ messages (session (handle_all flaky (map ChatInput ([] ++ ["Hello"])) flaky_world))
      = Some ([] ++ [Message "user" "Hello"; Message "assistant" "Hi!"]))
  /\ (calls (handle_all flaky (map ChatInput (["Hello"] ++ ["Are you there?"]))
               flaky_world)
      = calls (handle_all flaky (map ChatInput ["Hello"]) flaky_world)
        ++ [(chat_request "AIza_valid" "Are you there?",
             OtherException "503 unavailable")]
      /\ messages (session (handle_all flaky
                              (map ChatInput (["Hello"] ++ ["Are you there?"]))
                              flaky_world))
         = Some ([Message "user" "Hello"; Message "assistant" "Hi!"]
                 ++ [Message "user" "Are you there?"])).
Proof.
  split.
  - destruct (history_growth_per_send flaky flaky_world [] "Hello" [] "AIza_valid")
      as (Hc & Ha & _).
    + split; reflexivity.
    + reflexivity.
    + reflexivity.
    + reflexivity.
    + split; [exact Hc|]. exact (proj1 (Ha "Hi!" eq_refl eq_refl)).
  - destruct (history_growth_per_send flaky flaky_world ["Hello"] "Are you there?"
                [Message "user" "Hello"; Message "assistant" "Hi!"] "AIza_valid")
      as (Hc & _ & Ht & _).
    + split; reflexivity.
    + reflexivity.
    + reflexivity.
    + reflexivity.
    + split; [exact Hc|]. exact (proj1 (Ht eq_refl)).
Defined.

(** C1 as stated fails: a request that succeeds with an empty text is not
    an error, and it leaves the user message alone in the history. *)
Lemma successful_send_with_empty_text :
  let w' := handle silent (ChatInput "Hello") silent_world in
  gated (session silent_world)
  /\ messages (session silent_world) = Some []
  /\ calls w' = calls silent_world
                ++ [(chat_request "AIza_valid" "Hello", Response (Txt ""))]
  /\ page w' = [st_chat_message "user" "Hello"]
  /\ messages (session w') = Some [Message "user" "Hello"]
  /\ messages (session w') <> Some [Message "user" "Hello"; Message "assistant" ""].
Proof.
  vm_compute. repeat split; try reflexivity. discriminate.
Qed.

(** *** C2: the sentiment of a summary *)

(** C2, as the code has it.  With a non-empty history, the sentiment of a
    successful summary is "Neutral" when the reply has no marker, and
    otherwise the trimmed text that follows the marker, whatever it is; the
    summary is the trimmed text before it.  Only the face shown next to it is
    one of three, chosen by the words "Positive" and then "Negative" inside
    it. *)
Theorem summarize_sentiment_is_reply_text remote key w m ms summary sentiment w' :
  messages (session w) = Some (m :: ms) ->
  generate_summary_and_sentiment remote key w = (Ok (Some summary, Some sentiment), w') ->
  exists result,
    remote (calls w) (summary_request key (m :: ms)) = Response (Txt result)
    /\ (if contains marker result
        then exists before after,
               result = before +++ marker +++ after
               /\ summary = strip before /\ sentiment = strip after
        else summary = strip result /\ sentiment = "Neutral")
    /\ face_of sentiment
       = (if contains "Positive" sentiment then Smiling
          else if contains "Negative" sentiment then Disappointed
          else NeutralFace).
Proof.
  intros Hm Hrun.
  destruct (generate_summary_nonempty remote key w m ms Hm) as [out Heq].
  rewrite Heq in Hrun. clear Heq.
  destruct (remote (calls w) (summary_request key (m :: ms))) as [[result|e]|e|e];
    try discriminate Hrun.
  exists result. split; [reflexivity|]. split; [|reflexivity].
  cbn [parse_reply] in Hrun.
  destruct (contains marker result).
  - destruct (split result marker) as [|a [|b [|x l]]] eqn:Hs; try discriminate Hrun.
    inversion Hrun; subst. exists a, b. repeat split.
    apply split_two_pieces; [discriminate | exact Hs].
  - inversion Hrun; subst. split; reflexivity.
Qed.

Lemma summarize_sentiment_witness :
  exists result,
    mixed (calls ended_world) (summary_request "sk-valid" hi_hello) = Response (Txt result)
    /\ (if contains marker result
        then exists before after,
               result = before +++ marker +++ after
               /\ "Fine." = strip before /\ "Mixed" = strip after
        else "Fine." = strip result /\ "Mixed" = "Neutral")
    /\ face_of "Mixed"
       = (if contains "Positive" "Mixed" then Smiling
          else if contains "Negative" "Mixed" then Disappointed
          else NeutralFace).
Proof.
  apply (summarize_sentiment_is_reply_text mixed "sk-valid" ended_world
           (Message "user" "hi") [Message "assistant" "hello"] "Fine." "Mixed"
           (snd (generate_summary_and_sentiment mixed "sk-valid" ended_world))).
  - reflexivity.
  - vm_compute. reflexivity.
Defined.

(** C2 as stated fails: the sentiment of a successful summary need not be
    in the enumeration. *)
Lemma summarize_sentiment_outside_enumeration :
  conversation_ended (session ended_world) = Some true
  /\ messages (session ended_world) = Some hi_hello
  /\ fst (generate_summary_and_sentiment mixed "sk-valid" ended_world)
     = Ok (Some "Fine.", Some "Mixed")
  /\ ~ In "Mixed" sentiment_enumeration.
Proof.
  repeat split; try (vm_compute; reflexivity).
  cbn. intros [H|[H|[H|[]]]]; discriminate H.
Qed.

(** *** C3: the parsing contract *)

(** C3 at a reply that has the marker twice: the contract gives a summary
    and a sentiment, the code gives neither and reports the unpacking error
    as a failed summary. *)
Theorem summarize_two_markers :
  parsing_contract twice = ("Good talk.", "Positive. Sentiment: Negative")
  /\ contains marker twice = true
  /\ generate_summary_and_sentiment (always twice) "sk-valid" ended_world
     = (Ok (None, None),
        mkWorld (session ended_world)
                [(summary_request "sk-valid" hi_hello, Response (Txt twice))]
                [st_error "Error generating summary: too many values to unpack (expected 2)"]).
Proof. repeat split; vm_compute; reflexivity. Qed.

(** *** C4: the summary of an empty history *)

(** C4. With an empty history the summary function returns the fixed pair
    "No conversation to summarize" / "Neutral" and leaves the world as it
    was: no request is added to the log. *)
Theorem summarize_empty_history remote key w :
  messages (session w) = Some [] ->
  generate_summary_and_sentiment remote key w
  = (Ok (Some "No conversation to summarize", Some "Neutral"), w).
Proof.
  intros Hm. unfold generate_summary_and_sentiment.
  unfold attr at 1. unfold bind at 1. rewrite Hm. reflexivity.
Qed.

Lemma summarize_empty_history_witness :
  generate_summary_and_sentiment (always "unused") "sk-valid" idle_world
  = (Ok (Some "No conversation to summarize", Some "Neutral"), idle_world).
Proof.
  apply (summarize_empty_history (always "unused") "sk-valid" idle_world).
  reflexivity.
Defined.

(** *** C5: the text sent to the summarizer *)



(** *** C6: a Google key without its prefix *)

(** C6, as the code has it.  When both keys are non-blank after trimming and
    the Google key does not start with "AIza", the submission ends with the
    error that names the Google key, no request is made and the session
    stays as it was, ungated, whatever the OpenAI key is. *)
Theorem malformed_primary_key remote w g o :
  reachable remote w ->
  api_keys_provided (session w) = Some false ->
  truthy (strip g) && truthy (strip o) = true ->
  startswith g "AIza" = false ->
  handle remote (FormSubmit g o) w
  = mkWorld (session w) (calls w)
            [st_error "Google API key should start with 'AIza'"].
Proof. exact (form_refuses_google_key remote w g o). Qed.

Lemma malformed_primary_key_witness :
  handle hello (FormSubmit "bad-key" "sk-valid") form_world
  = mkWorld (session form_world) (calls form_world)
            [st_error "Google API key should start with 'AIza'"].
Proof.
  apply (malformed_primary_key hello form_world "bad-key" "sk-valid").
  - apply form_world_reachable.
  - reflexivity.
  - reflexivity.
  - reflexivity.
Defined.

(** C6 as stated fails: a Google key without the prefix next to a blank
    OpenAI key ends with the warning that a key is missing, not with the
    error on the prefix. *)
Lemma malformed_primary_key_blank_secondary :
  api_keys_provided (session form_world) = Some false
  /\ startswith "bad-key" "AIza" = false
  /\ page (handle hello (FormSubmit "bad-key" "") form_world)
     = [st_warning "Please provide both API keys"]
  /\ ~ In (st_error "Google API key should start with 'AIza'")
          (page (handle hello (FormSubmit "bad-key" "") form_world)).
Proof.
  split; [reflexivity|]. split; [reflexivity|]. split; [vm_compute; reflexivity|].
  vm_compute. intros [H|[]]; discriminate H.
Qed.

(** *** C7: a probe that fails *)

(** C7. When the probe raises, the submission ends with the error that
    carries the remote text, the session is what it was (ungated, no key
    stored), and a chat input after it changes nothing and makes no
    request. *)
Theorem probe_failure_leaves_session_locked remote w g o e p :
  reachable remote w ->
  api_keys_provided (session w) = Some false ->
  truthy (strip g) && truthy (strip o) = true ->
  startswith g "AIza" = true ->
  startswith o "sk-" = true ->
  remote (calls w) (probe g) = InvalidArgument e
  \/ remote (calls w) (probe g) = OtherException e ->
  let w1 := handle remote (FormSubmit g o) w in
  w1 = mkWorld (session w) (calls w ++ [(probe g, remote (calls w) (probe g))])
               [st_error ("API key verification failed: " +++ e)]
  /\ api_keys_provided (session w1) = Some false
  /\ google_api_key (session w1) = google_api_key (session w)
  /\ openai_api_key (session w1) = openai_api_key (session w)
  /\ handle remote (ChatInput p) w1 = mkWorld (session w1) (calls w1) [].
Proof.
  intros Hr Hb Hk Hg Ho Hp w1.
  destruct (reachable_ungated remote w Hr Hb) as (h & gk & ok & Hw).
  assert (H1 : w1 = mkWorld (session w)
                      (calls w ++ [(probe g, remote (calls w) (probe g))])
                      [st_error ("API key verification failed: " +++ e)]).
  { subst w1. rewrite Hw at 1.
    rewrite (handle_form_rejected remote g o h gk ok _ _ e) by assumption.
    rewrite Hw at 3. reflexivity. }
  split; [exact H1|]. rewrite H1. cbn [session calls].
  repeat split; try assumption.
  rewrite Hw. cbn [session calls ungated_world]. apply handle_chat_ungated.
Qed.

Lemma probe_failure_witness :
  let w1 := handle rejecting (FormSubmit "AIza_revoked" "sk-valid") form_world in
  w1 = mkWorld (session form_world)
               (calls form_world
                ++ [(probe "AIza_revoked",
                     rejecting (calls form_world) (probe "AIza_revoked"))])
               [st_error ("API key verification failed: " +++ "400 API key not valid")]
  /\ api_keys_provided (session w1) = Some false
  /\ google_api_key (session w1) = google_api_key (session form_world)
  /\ openai_api_key (session w1) = openai_api_key (session form_world)
  /\ handle rejecting (ChatInput "Hello") w1 = mkWorld (session w1) (calls w1) [].
Proof.
  apply (probe_failure_leaves_session_locked rejecting form_world
           "AIza_revoked" "sk-valid" "400 API key not valid" "Hello").
  - apply (form_world_reachable rejecting).
  - reflexivity.
  - reflexivity.
  - reflexivity.
  - reflexivity.
  - left. reflexivity.
Defined.

(** *** C8: an invalid credential during the chat *)

(** C8. When the chat request raises [InvalidArgument], the flag
    [api_keys_provided] goes back to false, the history is the old one with
    the user message at its end and no assistant message, and the keys and
    the ended flag stay. *)
Theorem auth_error_demotes_session remote w h k p e :
  gated (session w) ->
  messages (session w) = Some h ->
  google_api_key (session w) = Some k ->
  truthy p = true ->
  remote (calls w) (chat_request k p) = InvalidArgument e ->
  let w' := handle remote (ChatInput p) w in
  session w' = set_api_keys_provided false
                 (set_messages (h ++ [Message "user" p]) (session w))
  /\ calls w' = calls w ++ [(chat_request k p, InvalidArgument e)].
Proof.
  intros [Hb He] Hm Hk Hp Hr w'. subst w'.
  destruct w as [[ms en pr gk ok] cs pg]. cbn in Hb, He, Hm, Hk, Hr. subst.
  destruct (handle_chat_gated remote p h k ok cs pg Hp) as [pg' ->].
  rewrite Hr. cbn. split; reflexivity.
Qed.

Lemma auth_error_witness :
  let w' := handle rejecting (ChatInput "Hello") chat_world in
  session w' = set_api_keys_provided false
                 (set_messages ([] ++ [Message "user" "Hello"]) (session chat_world))
  /\ calls w' = calls chat_world
                ++ [(chat_request "AIza_valid" "Hello",
                     InvalidArgument "400 API key not valid")].
Proof.
  apply (auth_error_demotes_session rejecting chat_world [] "AIza_valid" "Hello"
           "400 API key not valid").
  - split; reflexivity.
  - reflexivity.
  - reflexivity.
  - reflexivity.
  - reflexivity.
Defined.

(** *** C9: starting a new conversation *)

(** C9. In the ended state, "Start New Conversation" empties the history
    and clears the ended flag; both keys and [api_keys_provided] stay. *)
Theorem start_new_keeps_credentials remote w :
  reachable remote w ->
  conversation_ended (session w) = Some true ->
  session (handle remote StartNewConversation w)
  = set_conversation_ended false (set_messages [] (session w)).
Proof.
  intros Hr He. apply reachable_wf in Hr.
  destruct w as [[ms en pr gk ok] cs pg]. cbn in He. subst en.
  destruct Hr as [Hf | (h & e & b & Hm & He & Hb & Hk & Heb)]; [discriminate Hf|].
  cbn in Hm, He, Hb, Hk. inversion He; subst e. subst ms pr.
  rewrite (Heb eq_refl) in *.
  destruct (Hk eq_refl) as (g & o & -> & ->).
  destruct (handle_start_new remote h g o cs pg) as (cs' & pg' & ->).
  reflexivity.
Qed.

Lemma start_new_witness :
  session (handle hello StartNewConversation closed_world)
  = set_conversation_ended false (set_messages [] (session closed_world)).
Proof.
  apply (start_new_keeps_credentials hello closed_world).
  - apply closed_world_reachable.
  - vm_compute. reflexivity.
Defined.

(** *** C10: keys checked as typed, stored trimmed *)



(** ** Views, steps and shapes for the further properties *)

Section Views.

Variable remote : list (Call * Reply) -> Call -> Reply.

Lemma generate_summary_exact key h m ms gk ok e b cs pg :
  h = m :: ms ->
  let c := summary_request key h in
  let r := remote cs c in
  generate_summary_and_sentiment remote key
    (mkWorld (SessionState (Some h) e b gk ok) cs pg)
  = (Ok (parse_reply r),
     mkWorld (SessionState (Some h) e b gk ok) (cs ++ [(c, r)])
             (pg ++ summary_errors r)).
Proof.
  intros -> c r. subst c r. unfold summary_request, parse_reply, summary_errors.
  unfold generate_summary_and_sentiment. run.
  destruct (remote _ _) as [[result|e']|e'|e']; run; try reflexivity.
  destruct (contains marker result).
  - destruct (split result marker) as [|a [|b' [|x l]]]; run; try reflexivity.
    rewrite strip_idempotent, app_nil_r. reflexivity.
  - rewrite app_nil_r. reflexivity.
Qed.

Lemma handle_no_event_chat h g o cs pg :
  handle remote NoEvent (chat_state_world h g o cs pg)
  = chat_state_world h g o cs (chat_page h).
Proof. unfold chat_state_world, chat_page. unfold_main; run. reflexivity. Qed.

Lemma handle_no_event_ended_empty g o cs pg :
  handle remote NoEvent (ended_state_world [] g o cs pg)
  = ended_state_world [] g o cs
      [ended_banner; st_summary "No conversation to summarize";
       st_sentiment NeutralFace "Neutral"].
Proof.
  unfold ended_state_world, ended_banner. unfold_main; run.
  unfold generate_summary_and_sentiment. run. reflexivity.
Qed.

Lemma handle_no_event_ended h m ms g o cs pg :
  h = m :: ms ->
  let r := remote cs (summary_request o h) in
  handle remote NoEvent (ended_state_world h g o cs pg)
  = ended_state_world h g o (cs ++ [(summary_request o h, r)])
      (chat_page h ++ [ended_banner] ++ summary_errors r
       ++ summary_display (parse_reply r)).
Proof.
  intros Hh r. unfold ended_state_world, ended_banner, chat_page.
  unfold_main; run.
  rewrite (generate_summary_exact o h m ms _ _ _ _ _ _ Hh).
  fold r. unfold summary_display.
  destruct (parse_reply r) as [[s|] [t|]]; run; rewrite <- ?app_assoc; cbn [app];
    try (rewrite app_nil_r; reflexivity).
  destruct (truthy s); run; [destruct (truthy t); run|];
    rewrite <- ?app_assoc; cbn [app]; rewrite ?app_nil_r; reflexivity.
Qed.


(** *** The credential form *)

Lemma handle_fresh ev cs pg :
  handle remote ev (mkWorld fresh cs pg)
  = handle remote ev (ungated_world [] None None cs pg).
Proof. unfold ungated_world, fresh. destruct ev; unfold_main; run; reflexivity. Qed.

Lemma handle_ungated_idle ev h gk ok cs pg :
  form_submit_button ev = None ->
  handle remote ev (ungated_world h gk ok cs pg) = ungated_world h gk ok cs [].
Proof.
  unfold ungated_world. destruct ev; intros H; try discriminate H;
    unfold_main; run; reflexivity.
Qed.

Lemma handle_form_accepted_page g o h gk ok cs pg t :
  truthy (strip g) && truthy (strip o) = true ->
  startswith g "AIza" = true ->
  startswith o "sk-" = true ->
  remote cs (probe g) = Response t ->
  handle remote (FormSubmit g o) (ungated_world h gk ok cs pg)
  = chat_state_world h (strip g) (strip o) (cs ++ [(probe g, Response t)])
      (chat_page h).
Proof.
  intros H Hg Ho Hr. cbv [andb] in H.
  unfold ungated_world, chat_state_world, chat_page, probe in *.
  unfold_main; run. rewrite H, Hg, Ho. run. rewrite Hr. run. reflexivity.
Qed.

(** *** The chat *)

Lemma handle_chat_idle ev h g o cs pg :
  chat_input ev = None \/ chat_input ev = Some "" ->
  button_end ev = false ->
  handle remote ev (chat_state_world h g o cs pg)
  = chat_state_world h g o cs (chat_page h).
Proof.
  unfold chat_state_world, chat_page.
  destruct ev; intros [H|H] He; try discriminate H; try discriminate He;
    try (inversion H; subst); unfold_main; run; reflexivity.
Qed.

Lemma handle_chat_answered p t h g o cs pg :
  truthy p = true ->
  remote cs (chat_request g p) = Response (Txt t) ->
  truthy t = true ->
  handle remote (ChatInput p) (chat_state_world h g o cs pg)
  = chat_state_world (h ++ [Message "user" p; Message "assistant" t]) g o
      (cs ++ [(chat_request g p, Response (Txt t))])
      (chat_page (h ++ [Message "user" p; Message "assistant" t])).
Proof.
  intros Hp Hr Ht. unfold chat_state_world, chat_page, chat_request in *.
  unfold_main; run. rewrite Hp. run. rewrite Hr. run. rewrite Ht. run.
  rewrite <- !app_assoc. reflexivity.
Qed.

Lemma handle_chat_unanswered p r h g o cs pg :
  truthy p = true ->
  remote cs (chat_request g p) = r ->
  answered r = false -> auth_error r = false ->
  handle remote (ChatInput p) (chat_state_world h g o cs pg)
  = chat_state_world (h ++ [Message "user" p]) g o
      (cs ++ [(chat_request g p, r)])
      (chat_page (h ++ [Message "user" p])).
Proof.
  intros Hp Hr Ha Hu. unfold chat_state_world, chat_page, chat_request in *.
  unfold_main; run. rewrite Hp. run. rewrite Hr.
  destruct r as [[t|e]|e|e]; cbn in Ha, Hu; try discriminate Hu; run;
    try rewrite Ha; run; reflexivity.
Qed.

Lemma handle_chat_auth_error p e h g o cs pg :
  truthy p = true ->
  remote cs (chat_request g p) = InvalidArgument e ->
  handle remote (ChatInput p) (chat_state_world h g o cs pg)
  = ungated_world (h ++ [Message "user" p]) (Some g) (Some o)
      (cs ++ [(chat_request g p, InvalidArgument e)]) [].
Proof.
  intros Hp Hr. unfold chat_state_world, ungated_world, chat_request in *.
  unfold_main; run. rewrite Hp. run. rewrite Hr. run. reflexivity.
Qed.

Lemma handle_no_event w :
  handle remote NoEvent w = finish (run_script remote NoEvent w).
Proof.
  unfold handle. pose proof (rerun_settles remote w) as H.
  destruct (run_script remote NoEvent w) as [[[]| |e] w']; cbn in H;
    [reflexivity | congruence | reflexivity].
Qed.

Lemma handle_end h g o cs pg :
  handle remote EndConversation (chat_state_world h g o cs pg)
  = handle remote NoEvent (ended_state_world h g o cs pg).
Proof.
  rewrite handle_no_event.
  unfold chat_state_world, ended_state_world. unfold_main; run. reflexivity.
Qed.

(** *** The summary view *)

Lemma handle_ended_idle ev h g o cs pg :
  button_new ev = false ->
  handle remote ev (ended_state_world h g o cs pg)
  = handle remote NoEvent (ended_state_world h g o cs pg).
Proof.
  unfold ended_state_world.
  destruct ev; intros H; try discriminate H; unfold_main; run; reflexivity.
Qed.

Lemma handle_start_new_exact h g o cs pg :
  handle remote StartNewConversation (ended_state_world h g o cs pg)
  = chat_state_world [] g o
      (match h with
       | [] => cs
       | _ :: _ => cs ++ [(summary_request o h, remote cs (summary_request o h))]
       end) [].
Proof.
  unfold ended_state_world, chat_state_world. destruct h as [|m ms].
  - unfold_main; run. unfold generate_summary_and_sentiment. run. reflexivity.
  - unfold_main; run.
    rewrite (generate_summary_exact o (m :: ms) m ms _ _ _ _ _ _ eq_refl).
    destruct (parse_reply _) as [[s|] [t|]]; run; try reflexivity.
    destruct (truthy s); run; [destruct (truthy t); run|]; reflexivity.
Qed.

End Views.

Lemma wf_shape w :
  wf (session w) ->
  w = mkWorld fresh (calls w) (page w)
  \/ (exists h gk ok, w = ungated_world h gk ok (calls w) (page w))
  \/ (exists h g o, w = chat_state_world h g o (calls w) (page w))
  \/ (exists h g o, w = ended_state_world h g o (calls w) (page w)).
Proof.
  destruct w as [[ms en pr gk ok] cs pg]. cbn [session calls page].
  intros [Hf | (h & e & b & Hm & He & Hb & Hk & Heb)].
  - left. rewrite Hf. reflexivity.
  - right. cbn in Hm, He, Hb, Hk. subst ms en pr. destruct b.
    + right. destruct (Hk eq_refl) as (g & o & -> & ->).
      destruct e; [right | left]; exists h, g, o; reflexivity.
    + left. destruct e; [discriminate (Heb eq_refl)|].
      exists h, gk, ok. reflexivity.
Qed.

Lemma no_exception_nil : no_exception [].
Proof. intros e []. Qed.

Lemma no_exception_app a b : no_exception a -> no_exception b -> no_exception (a ++ b).
Proof. intros Ha Hb e H. apply in_app_or in H. destruct H; [apply (Ha e) | apply (Hb e)]; assumption. Qed.

Lemma no_exception_chat_page h : no_exception (chat_page h).
Proof.
  intros e H. unfold chat_page in H. apply in_map_iff in H.
  destruct H as (m & Hm & _). discriminate Hm.
Qed.

Lemma no_exception_summary_errors r : no_exception (summary_errors r).
Proof.
  intros e. unfold summary_errors.
  destruct r as [[result|x]|x|x]; cbn; try (intros [H|[]]; discriminate H).
  destruct (contains marker result); [|intros []].
  destruct (split result marker) as [|a [|b [|c l]]]; cbn;
    try (intros [H|[]]; discriminate H). intros [].
Qed.

Lemma no_exception_summary_display r : no_exception (summary_display r).
Proof.
  intros e. unfold summary_display. destruct r as [[s|] [t|]]; cbn; try (intros []).
  destruct (truthy s && truthy t); cbn; [|intros []].
  intros [H|[H|[]]]; discriminate H.
Qed.

Lemma no_exception_one o : (forall e, o <> st_exception e) -> no_exception [o].
Proof. intros Ho e [H|[]]. exact (Ho e H). Qed.

Lemma well_formed_user p : truthy p = true -> well_formed_message (Message "user" p).
Proof. intros H. split; [left; reflexivity | exact H]. Qed.

Lemma well_formed_assistant t :
  truthy t = true -> well_formed_message (Message "assistant" t).
Proof. intros H. split; [right; reflexivity | exact H]. Qed.

Section Steps.

Variable remote : list (Call * Reply) -> Call -> Reply.

Ltac close_page :=
  repeat first
    [ apply no_exception_nil
    | apply no_exception_chat_page
    | apply no_exception_summary_errors
    | apply no_exception_summary_display
    | apply no_exception_app
    | apply no_exception_one; intros ? ?; discriminate
    | solve [ let H := fresh in
              intros ? H; cbn in H;
              repeat (destruct H as [H|H]; [discriminate H|]); exact H ] ].

Ltac solve_messages :=
  repeat first [ assumption | apply Forall_nil | apply Forall_cons
               | apply well_formed_user | apply well_formed_assistant ].

Ltac solve_step :=
  cbn [calls session messages page ungated_world chat_state_world
       ended_state_world conversation_ended];
  rewrite ?app_nil_r;
  (split; [reflexivity|]); (split; [cbn; lia|]); (split; [solve_messages|]);
  (split; [left; reflexivity | close_page]).

Ltac same_step := exists [], []; solve_step.

Ltac one_request c r := exists [(c, r)], []; solve_step.

Lemma ended_view_step ev h g o cs pg :
  step_summary_of ev (ended_state_world h g o cs pg)
    (handle remote NoEvent (ended_state_world h g o cs pg)).
Proof.
  unfold step_summary_of. cbn [ended_state_world session messages calls].
  destruct h as [|m ms].
  - rewrite handle_no_event_ended_empty. unfold ended_banner. same_step.
  - rewrite (handle_no_event_ended remote (m :: ms) m ms g o cs pg eq_refl).
    one_request (summary_request o (m :: ms)) (remote cs (summary_request o (m :: ms))).
Qed.

Lemma ungated_step ev h gk ok cs pg :
  step_summary_of ev (ungated_world h gk ok cs pg)
    (handle remote ev (ungated_world h gk ok cs pg)).
Proof.
  unfold step_summary_of. cbn [ungated_world session messages calls].
  destruct (form_submit_button ev) as [[g o]|] eqn:Hev.
  - destruct ev; try discriminate Hev. cbn in Hev. inversion Hev; subst. clear Hev.
    destruct (truthy (strip g) && truthy (strip o)) eqn:Hk;
      [|rewrite (handle_form_blank remote g o h gk ok cs pg Hk); same_step].
    destruct (startswith g "AIza") eqn:Hg;
      [|rewrite (handle_form_google_prefix remote g o h gk ok cs pg Hk Hg); same_step].
    destruct (startswith o "sk-") eqn:Ho;
      [|rewrite (handle_form_openai_prefix remote g o h gk ok cs pg Hk Hg Ho); same_step].
    destruct (remote cs (probe g)) as [t|e|e] eqn:Hr.
    + rewrite (handle_form_accepted_page remote g o h gk ok cs pg t Hk Hg Ho Hr).
      one_request (probe g) (Response t).
    + rewrite (handle_form_rejected remote g o h gk ok cs pg e Hk Hg Ho (or_introl Hr)).
      rewrite Hr. one_request (probe g) (InvalidArgument e).
    + rewrite (handle_form_rejected remote g o h gk ok cs pg e Hk Hg Ho (or_intror Hr)).
      rewrite Hr. one_request (probe g) (OtherException e).
  - rewrite (handle_ungated_idle remote ev h gk ok cs pg Hev). same_step.
Qed.

Lemma chat_state_step ev h g o cs pg :
  step_summary_of ev (chat_state_world h g o cs pg)
    (handle remote ev (chat_state_world h g o cs pg)).
Proof.
  destruct ev as [|fg fo|p| |].
  - unfold step_summary_of. cbn [chat_state_world session messages calls].
    rewrite handle_chat_idle by (auto; left; reflexivity). same_step.
  - unfold step_summary_of. cbn [chat_state_world session messages calls].
    rewrite handle_chat_idle by (auto; left; reflexivity). same_step.
  - unfold step_summary_of. cbn [chat_state_world session messages calls].
    destruct (truthy p) eqn:Hp.
    + destruct (remote cs (chat_request g p)) as [[t|e]|e|e] eqn:Hr.
      * destruct (truthy t) eqn:Ht.
        -- rewrite (handle_chat_answered remote p t h g o cs pg Hp Hr Ht).
           exists [(chat_request g p, Response (Txt t))],
                  [Message "user" p; Message "assistant" t].
           solve_step.
        -- rewrite (handle_chat_unanswered remote p _ h g o cs pg Hp Hr) by (cbn; auto).
           exists [(chat_request g p, Response (Txt t))], [Message "user" p].
           solve_step.
      * rewrite (handle_chat_unanswered remote p _ h g o cs pg Hp Hr) by reflexivity.
        exists [(chat_request g p, Response (NoText e))], [Message "user" p].
        solve_step.
      * rewrite (handle_chat_auth_error remote p e h g o cs pg Hp Hr).
        exists [(chat_request g p, InvalidArgument e)], [Message "user" p].
        solve_step.
      * rewrite (handle_chat_unanswered remote p _ h g o cs pg Hp Hr) by reflexivity.
        exists [(chat_request g p, OtherException e)], [Message "user" p].
        solve_step.
    + destruct p; [|discriminate Hp].
      rewrite handle_chat_idle by (auto; right; reflexivity). same_step.
  - rewrite handle_end.
    pose proof (ended_view_step NoEvent h g o cs pg) as H.
    unfold step_summary_of in *. cbn [chat_state_world ended_state_world session messages calls
                                     conversation_ended] in *.
    destruct H as (new & suffix & Hc & Hl & Hf & [Hm | (Hx & _)] & Hp);
      [|discriminate Hx].
    exists new, suffix. split; [exact Hc|]. split; [exact Hl|]. split; [exact Hf|].
    split; [left; exact Hm | exact Hp].
  - unfold step_summary_of. cbn [chat_state_world session messages calls].
    rewrite handle_chat_idle by (auto; left; reflexivity). same_step.
Qed.

Lemma ended_state_step ev h g o cs pg :
  step_summary_of ev (ended_state_world h g o cs pg)
    (handle remote ev (ended_state_world h g o cs pg)).
Proof.
  destruct (button_new ev) eqn:Hev.
  - destruct ev; try discriminate Hev.
    rewrite handle_start_new_exact. unfold step_summary_of.
    cbn [chat_state_world ended_state_world session messages calls page conversation_ended].
    destruct h as [|m ms].
    + exists [], []. solve_step.
    + exists [(summary_request o (m :: ms), remote cs (summary_request o (m :: ms)))], [].
      cbn [app]. split; [reflexivity|]. split; [cbn; lia|]. split; [constructor|].
      split; [right; repeat split | apply no_exception_nil].
  - rewrite (handle_ended_idle remote ev h g o cs pg Hev). apply ended_view_step.
Qed.

Lemma handle_step ev w :
  wf (session w) -> step_summary_of ev w (handle remote ev w).
Proof.
  intros Hwf.
  destruct (wf_shape w Hwf) as [Hw | [(h & gk & ok & Hw) | [(h & g & o & Hw) | (h & g & o & Hw)]]];
    rewrite Hw.
  - rewrite handle_fresh.
    pose proof (ungated_step ev [] None None (calls w) (page w)) as H.
    unfold step_summary_of in *. cbn [ungated_world fresh session messages calls] in *.
    destruct H as (new & suffix & Hc & Hl & Hf & [Hm | (_ & Hx & _)] & Hp);
      [|discriminate Hx].
    exists new, suffix. split; [exact Hc|]. split; [exact Hl|]. split; [exact Hf|].
    split; [left; exact Hm | exact Hp].
  - apply ungated_step.
  - apply chat_state_step.
  - apply ended_state_step.
Qed.

End Steps.

Lemma prefix_rstrip p : forall s,
  spaceless p = true -> String.prefix p s = true -> String.prefix p (rstrip s) = true.
Proof.
  intros s; revert p. induction s as [|c s IH]; intros [|a p] Hp Hs;
    try apply prefix_nil; try discriminate Hs.
  cbn [spaceless] in Hp. apply andb_prop in Hp. destruct Hp as [Ha Hp].
  cbn [String.prefix] in Hs. destruct (ascii_dec a c) as [<-|]; [|discriminate Hs].
  specialize (IH p Hp Hs). cbn [rstrip].
  destruct (rstrip s) as [|d r].
  - destruct p; [|discriminate IH].
    apply negb_true_iff in Ha. rewrite Ha. cbn [String.prefix].
    destruct (ascii_dec a a); [reflexivity | congruence].
  - cbn [String.prefix]. destruct (ascii_dec a a); [exact IH | congruence].
Qed.

Lemma startswith_strip p s :
  spaceless p = true -> startswith s p = true -> startswith (strip s) p = true.
Proof.
  unfold startswith, strip. intros Hp Hs.
  destruct p as [|a p]; [apply prefix_nil|].
  assert (Hl : lstrip s = s).
  { destruct s as [|c s]; [discriminate Hs|].
    cbn [String.prefix] in Hs. destruct (ascii_dec a c) as [<-|]; [|discriminate Hs].
    cbn [spaceless] in Hp. apply andb_prop in Hp. destruct Hp as [Ha _].
    apply negb_true_iff in Ha. cbn [lstrip]. rewrite Ha. reflexivity. }
  rewrite Hl. apply prefix_rstrip; assumption.
Qed.

Lemma partition_app sep s before after :
  partition sep s = Some (before, after) -> s = before +++ sep +++ after.
Proof.
  revert before. induction s as [|c s IH]; intros before H.
  - cbn [partition] in H. destruct (String.prefix sep "") eqn:Hp; [|discriminate H].
    inversion H; subst. apply (prefix_drop sep "" Hp).
  - cbn [partition] in H. destruct (String.prefix sep (String c s)) eqn:Hp.
    + inversion H; subst. apply (prefix_drop sep (String c s) Hp).
    + destruct (partition sep s) as [[b a]|]; [|discriminate H].
      inversion H; subst. cbn [String.append]. f_equal. apply IH. reflexivity.
Qed.

Lemma contains_single_piece sep s :
  sep <> EmptyString -> contains sep s = false -> split s sep = [s].
Proof.
  intros Hsep Hc. rewrite contains_partition in Hc.
  unfold split. rewrite split_from_partition by exact Hsep.
  destruct (partition sep s) as [[? ?]|]; [discriminate Hc | reflexivity].
Qed.

Lemma split_second_marker result before after :
  partition marker result = Some (before, after) ->
  contains marker after = true ->
  exists a b c l, split result marker = a :: b :: c :: l.
Proof.
  intros Hp Hc. unfold split. rewrite split_from_partition, Hp by discriminate.
  destruct (split_contains marker after ltac:(discriminate) Hc) as (b' & piece & pieces & ->).
  eauto.
Qed.

Section Shapes.

Variable remote : list (Call * Reply) -> Call -> Reply.

Lemma told_reachable : reachable remote (told remote).
Proof. repeat apply reach_handle. apply reach_start. Qed.

Lemma reachable_chat s cs pg :
  reachable remote (mkWorld s cs pg) -> gated s ->
  exists h g o, s = SessionState (Some h) (Some false) (Some true) (Some g) (Some o).
Proof.
  intros Hr [Hb He]. apply reachable_wf in Hr. cbn [session] in Hr.
  destruct s as [ms en pr gk ok]. cbn in Hb, He. subst.
  destruct Hr as [Hf | (h & e & b & Hm & _ & Hb & Hk & _)]; [discriminate Hf|].
  cbn in Hm, Hb, Hk. inversion Hb; subst b. subst ms.
  destruct (Hk eq_refl) as (g & o & -> & ->). eauto.
Qed.

Lemma reachable_ended s cs pg :
  reachable remote (mkWorld s cs pg) -> conversation_ended s = Some true ->
  exists h g o, s = SessionState (Some h) (Some true) (Some true) (Some g) (Some o).
Proof.
  intros Hr He. apply reachable_wf in Hr. cbn [session] in Hr.
  destruct s as [ms en pr gk ok]. cbn in He. subst.
  destruct Hr as [Hf | (h & e & b & Hm & He & Hb & Hk & Heb)]; [discriminate Hf|].
  cbn in Hm, He, Hb, Hk. inversion He; subst e. subst ms pr.
  rewrite (Heb eq_refl) in *.
  destruct (Hk eq_refl) as (g & o & -> & ->). eauto.
Qed.

Lemma reachable_form s cs pg :
  reachable remote (mkWorld s cs pg) -> api_keys_provided s = Some false ->
  exists h gk ok, s = SessionState (Some h) (Some false) (Some false) gk ok.
Proof.
  intros Hr Hb.
  destruct (reachable_ungated remote _ Hr Hb) as (h & gk & ok & Hw).
  unfold ungated_world in Hw. inversion Hw. eauto.
Qed.

End Shapes.

(** ** Further properties of the script *)

(** *** Session state *)

(** X1. [initialize_session_state] gives the three flags their defaults
    only where they are missing: what a session already holds, keys
    included, is left as it is, nothing is requested or shown, and a second
    call changes nothing. *)
Theorem initialize_keeps_existing_state w :
  let w' := snd (initialize_session_state w) in
  fst (initialize_session_state w) = Ok tt
  /\ messages (session w')
     = Some (match messages (session w) with Some h => h | None => [] end)
  /\ conversation_ended (session w')
     = Some (match conversation_ended (session w) with Some e => e | None => false end)
  /\ api_keys_provided (session w')
     = Some (match api_keys_provided (session w) with Some b => b | None => false end)
  /\ google_api_key (session w') = google_api_key (session w)
  /\ openai_api_key (session w') = openai_api_key (session w)
  /\ calls w' = calls w /\ page w' = page w
  /\ initialize_session_state w' = (Ok tt, w').
Proof.
  destruct w as [[[h|] [e|] [b|] gk ok] cs pg]; cbn; repeat split.
Qed.

(** X2. In every session that can arise, the keys are stored whenever
    [api_keys_provided] holds, a conversation is ended only with the keys
    provided, and the three flags exist as soon as one run has happened. *)
Theorem session_invariant remote w :
  reachable remote w ->
  (api_keys_provided (session w) = Some true ->
   exists g o, google_api_key (session w) = Some g
               /\ openai_api_key (session w) = Some o)
  /\ (conversation_ended (session w) = Some true ->
      api_keys_provided (session w) = Some true)
  /\ (forall ev,
        exists h e b,
          messages (session (handle remote ev w)) = Some h
          /\ conversation_ended (session (handle remote ev w)) = Some e
          /\ api_keys_provided (session (handle remote ev w)) = Some b).
Proof.
  intros Hr. pose proof (reachable_wf remote w Hr) as Hwf.
  split; [|split].
  - intros Hb. destruct Hwf as [Hf | (h & e & b & _ & _ & Hb' & Hk & _)].
    + rewrite Hf in Hb. discriminate Hb.
    + rewrite Hb in Hb'. inversion Hb'; subst b. exact (Hk eq_refl).
  - intros He. destruct Hwf as [Hf | (h & e & b & _ & He' & Hb & _ & Heb)].
    + rewrite Hf in He. discriminate He.
    + rewrite He in He'. inversion He'; subst e. rewrite Hb, (Heb eq_refl). reflexivity.
  - intros ev. pose proof (handle_wf remote ev w Hwf) as Hwf'.
    destruct Hwf' as [Hf | (h & e & b & Hm & He & Hb & _)];
      [|exists h, e, b; repeat split; assumption].
    exfalso. destruct (handle_step remote ev w Hwf)
      as (new & suffix & _ & _ & _ & [Hm | (_ & _ & Hm)] & _);
      rewrite Hf in Hm; discriminate Hm.
Qed.

Lemma session_invariant_witness :
  (api_keys_provided (session closed_world) = Some true ->
   exists g o, google_api_key (session closed_world) = Some g
               /\ openai_api_key (session closed_world) = Some o)
  /\ (conversation_ended (session closed_world) = Some true ->
      api_keys_provided (session closed_world) = Some true)
  /\ (forall ev,
        exists h e b,
          messages (session (handle hello ev closed_world)) = Some h
          /\ conversation_ended (session (handle hello ev closed_world)) = Some e
          /\ api_keys_provided (session (handle hello ev closed_world)) = Some b).
Proof. apply (session_invariant hello closed_world closed_world_reachable). Defined.

(** X3. Whatever the event, the history of a session that can arise is
    only extended at its end, except by "Start New Conversation" in the
    ended state, which empties it. *)
Theorem history_only_grows_until_reset remote w h ev :
  reachable remote w ->
  messages (session w) = Some h ->
  (exists suffix, messages (session (handle remote ev w)) = Some (h ++ suffix))
  \/ (ev = StartNewConversation
      /\ conversation_ended (session w) = Some true
      /\ messages (session (handle remote ev w)) = Some []).
Proof.
  intros Hr Hm.
  destruct (handle_step remote ev w (reachable_wf remote w Hr))
    as (new & suffix & _ & _ & _ & [H | H] & _).
  - left. exists suffix. rewrite Hm in H. exact H.
  - right. exact H.
Qed.

Lemma history_only_grows_witness :
  (exists suffix,
      messages (session (handle hello (ChatInput "More") talk_world))
      = Some (greeting ++ suffix))
  \/ (ChatInput "More" = StartNewConversation
      /\ conversation_ended (session talk_world) = Some true
      /\ messages (session (handle hello (ChatInput "More") talk_world)) = Some []).
Proof.
  apply (history_only_grows_until_reset hello talk_world greeting (ChatInput "More")).
  - repeat apply reach_handle. apply reach_start.
  - reflexivity.
Defined.

(** X4. Every message of the history of a session that can arise has the
    role "user" or "assistant" and a content that is not empty. *)
Theorem history_messages_well_formed remote w h :
  reachable remote w ->
  messages (session w) = Some h ->
  Forall well_formed_message h.
Proof.
  intros Hr. revert h. induction Hr as [|ev w Hr IH]; intros h Hm.
  - discriminate Hm.
  - destruct (handle_step remote ev w (reachable_wf remote w Hr))
      as (new & suffix & _ & _ & Hf & [H | (_ & _ & H)] & _).
    + rewrite Hm in H. inversion H; subst h. apply Forall_app. split; [|exact Hf].
      destruct (messages (session w)) as [h0|]; [apply IH; reflexivity | constructor].
    + rewrite Hm in H. inversion H; subst h. constructor.
Qed.

Lemma history_messages_witness : Forall well_formed_message greeting.
Proof.
  apply (history_messages_well_formed hello talk_world greeting).
  - repeat apply reach_handle. apply reach_start.
  - reflexivity.
Defined.

(** X5. One event makes at most one request: the log of a session that can
    arise is only extended, by no request or by one. *)
Theorem one_request_per_event remote w ev :
  reachable remote w ->
  exists new,
    calls (handle remote ev w) = calls w ++ new /\ List.length new <= 1.
Proof.
  intros Hr.
  destruct (handle_step remote ev w (reachable_wf remote w Hr))
    as (new & suffix & Hc & Hl & _).
  exists new. split; assumption.
Qed.

Lemma one_request_witness :
  exists new,
    calls (handle hello EndConversation talk_world) = calls talk_world ++ new
    /\ List.length new <= 1.
Proof.
  apply (one_request_per_event hello talk_world EndConversation).
  repeat apply reach_handle. apply reach_start.
Defined.

(** X6. No run of a session that can arise ends with an exception that
    nobody catches: the attributes the script reads always exist, and the
    page never shows a traceback. *)
Theorem no_uncaught_exception remote w ev e :
  reachable remote w ->
  ~ In (st_exception e) (page (handle remote ev w)).
Proof.
  intros Hr.
  destruct (handle_step remote ev w (reachable_wf remote w Hr))
    as (new & suffix & _ & _ & _ & _ & Hp).
  apply Hp.
Qed.

Lemma no_uncaught_exception_witness :
  ~ In (st_exception "AttributeError: st.session_state has no attribute openai_api_key")
       (page (handle hello StartNewConversation closed_world)).
Proof.
  apply (no_uncaught_exception hello closed_world StartNewConversation).
  apply closed_world_reachable.
Defined.

(** *** The credential form *)

(** X7. A submission in which a key is blank after trimming ends with the
    warning that both keys are needed: no request is made and the session
    stays as it was. *)
Theorem missing_credential remote w g o :
  reachable remote w ->
  api_keys_provided (session w) = Some false ->
  truthy (strip g) && truthy (strip o) = false ->
  handle remote (FormSubmit g o) w
  = mkWorld (session w) (calls w) [st_warning "Please provide both API keys"].
Proof.
  intros Hr Hb Hk. destruct w as [s cs pg]. cbn [session calls] in *.
  destruct (reachable_form remote s cs pg Hr Hb) as (h & gk & ok & ->).
  exact (handle_form_blank remote g o h gk ok cs pg Hk).
Qed.

Lemma missing_credential_witness :
  handle hello (FormSubmit "AIza_valid" "   ") form_world
  = mkWorld (session form_world) (calls form_world)
            [st_warning "Please provide both API keys"].
Proof.
  apply (missing_credential hello form_world "AIza_valid" "   ").
  - apply form_world_reachable.
  - reflexivity.
  - reflexivity.
Defined.

(** X8. With both keys non-blank and a Google key that starts with "AIza",
    an OpenAI key that does not start with "sk-" ends the submission with
    the error that names the OpenAI key: no request is made and the session
    stays as it was. *)
Theorem malformed_secondary_key remote w g o :
  reachable remote w ->
  api_keys_provided (session w) = Some false ->
  truthy (strip g) && truthy (strip o) = true ->
  startswith g "AIza" = true ->
  startswith o "sk-" = false ->
  handle remote (FormSubmit g o) w
  = mkWorld (session w) (calls w)
            [st_error "OpenAI API key should start with 'sk-'"].
Proof.
  intros Hr Hb Hk Hg Ho. destruct w as [s cs pg]. cbn [session calls] in *.
  destruct (reachable_form remote s cs pg Hr Hb) as (h & gk & ok & ->).
  exact (handle_form_openai_prefix remote g o h gk ok cs pg Hk Hg Ho).
Qed.

Lemma malformed_secondary_key_witness :
  handle hello (FormSubmit "AIza_valid" "pk-valid") form_world
  = mkWorld (session form_world) (calls form_world)
            [st_error "OpenAI API key should start with 'sk-'"].
Proof.
  apply (malformed_secondary_key hello form_world "AIza_valid" "pk-valid").
  - apply form_world_reachable.
  - reflexivity.
  - reflexivity.
  - reflexivity.
  - reflexivity.
Defined.

(** X9. The keys stored by an accepted submission have no white space
    around them and still start with "AIza" and "sk-"; the chat opens on the
    history as it was. *)
Theorem accepted_keys_trimmed_with_prefix remote w g o t :
  reachable remote w ->
  api_keys_provided (session w) = Some false ->
  truthy (strip g) && truthy (strip o) = true ->
  startswith g "AIza" = true ->
  startswith o "sk-" = true ->
  remote (calls w) (probe g) = Response t ->
  let w' := handle remote (FormSubmit g o) w in
  exists k1 k2,
    google_api_key (session w') = Some k1 /\ openai_api_key (session w') = Some k2
    /\ strip k1 = k1 /\ strip k2 = k2
    /\ startswith k1 "AIza" = true /\ startswith k2 "sk-" = true
    /\ gated (session w')
    /\ messages (session w') = messages (session w).
Proof.
  intros Hr Hb Hk Hg Ho Hp w'. subst w'. destruct w as [s cs pg].
  cbn [session calls] in *.
  destruct (reachable_form remote s cs pg Hr Hb) as (h & gk & ok & ->).
  pose proof (handle_form_accepted_page remote g o h gk ok cs pg t Hk Hg Ho Hp) as H.
  unfold ungated_world, chat_state_world in H. rewrite H.
  exists (strip g), (strip o). cbn [session google_api_key openai_api_key messages].
  repeat split; try apply strip_idempotent.
  - apply startswith_strip; [reflexivity | exact Hg].
  - apply startswith_strip; [reflexivity | exact Ho].
Qed.

Lemma accepted_keys_witness :
  let w' := handle hello (FormSubmit "AIza_valid  " "sk-valid ") form_world in
  exists k1 k2,
    google_api_key (session w') = Some k1 /\ openai_api_key (session w') = Some k2
    /\ strip k1 = k1 /\ strip k2 = k2
    /\ startswith k1 "AIza" = true /\ startswith k2 "sk-" = true
    /\ gated (session w')
    /\ messages (session w') = messages (session form_world).
Proof.
  apply (accepted_keys_trimmed_with_prefix hello form_world
           "AIza_valid  " "sk-valid " (Txt "Hi!")).
  - apply form_world_reachable.
  - reflexivity.
  - reflexivity.
  - reflexivity.
  - reflexivity.
  - reflexivity.
Defined.

(** *** Events and the widgets on the page *)

(** X10. An event of a widget that the page does not show does what a run
    without event does: the form state only hears the form, the chat only
    the chat input and "End Conversation", the ended state only "Start New
    Conversation". *)
Theorem events_without_widget_are_ignored remote w ev :
  reachable remote w ->
  (api_keys_provided (session w) = Some false /\ form_submit_button ev = None)
  \/ (gated (session w) /\ chat_input ev = None /\ button_end ev = false)
  \/ (conversation_ended (session w) = Some true /\ button_new ev = false) ->
  handle remote ev w = handle remote NoEvent w.
Proof.
  intros Hr Hcase. destruct w as [s cs pg]. cbn [session] in *.
  destruct Hcase as [[Hb Hev] | [[Hg [Hev1 Hev2]] | [He Hev]]].
  - destruct (reachable_form remote s cs pg Hr Hb) as (h & gk & ok & ->).
    pose proof (handle_ungated_idle remote ev h gk ok cs pg Hev) as H1.
    pose proof (handle_ungated_idle remote NoEvent h gk ok cs pg eq_refl) as H2.
    unfold ungated_world in *. rewrite H1, H2. reflexivity.
  - destruct (reachable_chat remote s cs pg Hr Hg) as (h & g & o & ->).
    pose proof (handle_chat_idle remote ev h g o cs pg (or_introl Hev1) Hev2) as H1.
    pose proof (handle_chat_idle remote NoEvent h g o cs pg (or_introl eq_refl) eq_refl) as H2.
    unfold chat_state_world in *. rewrite H1, H2. reflexivity.
  - destruct (reachable_ended remote s cs pg Hr He) as (h & g & o & ->).
    exact (handle_ended_idle remote ev h g o cs pg Hev).
Qed.

Lemma events_without_widget_witness :
  handle hello (ChatInput "One more thing") closed_world
  = handle hello NoEvent closed_world.
Proof.
  apply (events_without_widget_are_ignored hello closed_world
           (ChatInput "One more thing") closed_world_reachable).
  right. right. split; reflexivity.
Defined.

(** X11. A run without event in the chat shows the history, message by
    message in its order, and changes neither the session nor the log. *)
Theorem refresh_shows_history remote w h :
  reachable remote w ->
  gated (session w) ->
  messages (session w) = Some h ->
  handle remote NoEvent w
  = mkWorld (session w) (calls w)
            (map (fun m => st_chat_message (role m) (content m)) h).
Proof.
  intros Hr Hg Hm. destruct w as [s cs pg]. cbn [session calls] in *.
  destruct (reachable_chat remote s cs pg Hr Hg) as (h' & g & o & ->).
  cbn in Hm. inversion Hm; subst h'.
  exact (handle_no_event_chat remote h g o cs pg).
Qed.

Lemma refresh_witness :
  handle hello NoEvent talk_world
  = mkWorld (session talk_world) (calls talk_world)
            (map (fun m => st_chat_message (role m) (content m)) greeting).
Proof.
  apply (refresh_shows_history hello talk_world greeting).
  - repeat apply reach_handle. apply reach_start.
  - split; reflexivity.
  - reflexivity.
Defined.

(** X12. A chat request that fails with anything but an invalid credential
    leaves the session in the chat with the user message at the end of the
    history; the page of the run that follows shows the history and not the
    error text, which was written in the run that [st.rerun()] ended. *)
Theorem transient_error_keeps_chat_open remote w h k p r :
  reachable remote w ->
  gated (session w) ->
  messages (session w) = Some h ->
  google_api_key (session w) = Some k ->
  truthy p = true ->
  remote (calls w) (chat_request k p) = r ->
  transient_error r = true ->
  handle remote (ChatInput p) w
  = mkWorld (set_messages (h ++ [Message "user" p]) (session w))
            (calls w ++ [(chat_request k p, r)])
            (map (fun m => st_chat_message (role m) (content m))
                 (h ++ [Message "user" p])).
Proof.
  intros Hr Hg Hm Hk Hp Hreq Ht. destruct w as [s cs pg]. cbn [session calls] in *.
  destruct (reachable_chat remote s cs pg Hr Hg) as (h' & g & o & ->).
  cbn in Hm, Hk. inversion Hm; subst h'. inversion Hk; subst k.
  assert (Ha : answered r = false) by (destruct r as [[?|?]|?|?]; try discriminate Ht; reflexivity).
  assert (Hu : auth_error r = false) by (destruct r as [[?|?]|?|?]; try discriminate Ht; reflexivity).
  exact (handle_chat_unanswered remote p r h g o cs pg Hp Hreq Ha Hu).
Qed.

Lemma transient_error_witness :
  handle flaky (ChatInput "Are you there?") flaky_talk_world
  = mkWorld (set_messages (greeting ++ [Message "user" "Are you there?"])
                          (session flaky_talk_world))
            (calls flaky_talk_world
             ++ [(chat_request "AIza_valid" "Are you there?",
                  OtherException "503 unavailable")])
            (map (fun m => st_chat_message (role m) (content m))
                 (greeting ++ [Message "user" "Are you there?"])).
Proof.
  apply (transient_error_keeps_chat_open flaky flaky_talk_world greeting
           "AIza_valid" "Are you there?" (OtherException "503 unavailable")).
  - repeat apply reach_handle. apply reach_start.
  - split; reflexivity.
  - reflexivity.
  - reflexivity.
  - reflexivity.
  - vm_compute. reflexivity.
  - reflexivity.
Defined.

(** *** Ending a conversation and the summary view *)

Section EndedView.

Variable remote : list (Call * Reply) -> Call -> Reply.

(** The run of any event but "Start New Conversation" in the ended state
    with a history that is not empty. *)
Lemma ended_view ev s cs pg m ms o :
  reachable remote (mkWorld s cs pg) ->
  conversation_ended s = Some true ->
  messages s = Some (m :: ms) ->
  openai_api_key s = Some o ->
  button_new ev = false ->
  let r := remote cs (summary_request o (m :: ms)) in
  handle remote ev (mkWorld s cs pg)
  = mkWorld s (cs ++ [(summary_request o (m :: ms), r)])
      (chat_page (m :: ms) ++ [ended_banner] ++ summary_errors r
       ++ summary_display (parse_reply r)).
Proof.
  intros Hr He Hm Ho Hev r. subst r.
  destruct (reachable_ended remote s cs pg Hr He) as (h & g & o' & ->).
  cbn in Hm, Ho. inversion Hm; subst h. inversion Ho; subst o'.
  pose proof (handle_ended_idle remote ev (m :: ms) g o cs pg Hev) as H1.
  pose proof (handle_no_event_ended remote (m :: ms) m ms g o cs pg eq_refl) as H2.
  unfold ended_state_world in *. rewrite H1, H2. reflexivity.
Qed.

End EndedView.

(** X13. "End Conversation" in the chat sets the ended flag and nothing
    else in the session; the run that follows requests the summary of the
    history, once, unless the history is empty. *)
Theorem end_conversation_requests_summary remote w h o :
  reachable remote w ->
  gated (session w) ->
  messages (session w) = Some h ->
  openai_api_key (session w) = Some o ->
  let w' := handle remote EndConversation w in
  session w' = set_conversation_ended true (session w)
  /\ calls w'
     = match h with
       | [] => calls w
       | _ :: _ => calls w ++ [(summary_request o h, remote (calls w) (summary_request o h))]
       end.
Proof.
  intros Hr Hg Hm Ho w'. subst w'. destruct w as [s cs pg]. cbn [session calls] in *.
  destruct (reachable_chat remote s cs pg Hr Hg) as (h' & g & o' & ->).
  cbn in Hm, Ho. inversion Hm; subst h'. inversion Ho; subst o'.
  pose proof (handle_end remote h g o cs pg) as H. unfold chat_state_world in H.
  rewrite H. destruct h as [|m ms].
  - rewrite handle_no_event_ended_empty. split; reflexivity.
  - rewrite (handle_no_event_ended remote (m :: ms) m ms g o cs pg eq_refl).
    split; reflexivity.
Qed.

Lemma end_conversation_witness :
  let w' := handle hello EndConversation talk_world in
  session w' = set_conversation_ended true (session talk_world)
  /\ calls w'
     = calls talk_world
       ++ [(summary_request "sk-valid" greeting,
            hello (calls talk_world) (summary_request "sk-valid" greeting))].
Proof.
  apply (end_conversation_requests_summary hello talk_world greeting "sk-valid").
  - repeat apply reach_handle. apply reach_start.
  - split; reflexivity.
  - reflexivity.
  - reflexivity.
Defined.

(** X14. In the ended state with an empty history every run but the one
    of "Start New Conversation" shows the fixed summary "No conversation to
    summarize" with the neutral face, makes no request and leaves the
    session as it is. *)
Theorem ended_empty_history_view remote w ev :
  reachable remote w ->
  conversation_ended (session w) = Some true ->
  messages (session w) = Some [] ->
  button_new ev = false ->
  handle remote ev w
  = mkWorld (session w) (calls w)
      [ended_banner; st_summary "No conversation to summarize";
       st_sentiment NeutralFace "Neutral"].
Proof.
  intros Hr He Hm Hev. destruct w as [s cs pg]. cbn [session calls] in *.
  destruct (reachable_ended remote s cs pg Hr He) as (h & g & o & ->).
  cbn in Hm. inversion Hm; subst h.
  pose proof (handle_ended_idle remote ev [] g o cs pg Hev) as H1.
  pose proof (handle_no_event_ended_empty remote g o cs pg) as H2.
  unfold ended_state_world in *. rewrite H1, H2. reflexivity.
Qed.

Lemma ended_empty_history_witness :
  handle hello NoEvent empty_closed_world
  = mkWorld (session empty_closed_world) (calls empty_closed_world)
      [ended_banner; st_summary "No conversation to summarize";
       st_sentiment NeutralFace "Neutral"].
Proof.
  apply (ended_empty_history_view hello empty_closed_world NoEvent).
  - repeat apply reach_handle. apply reach_start.
  - reflexivity.
  - reflexivity.
  - reflexivity.
Defined.

(** X15. In the ended state with a history that is not empty, every run
    but the one of "Start New Conversation" requests the summary again:
    one more request in the log, the session unchanged. *)
Theorem summary_requested_on_every_run remote w ev m ms o :
  reachable remote w ->
  conversation_ended (session w) = Some true ->
  messages (session w) = Some (m :: ms) ->
  openai_api_key (session w) = Some o ->
  button_new ev = false ->
  session (handle remote ev w) = session w
  /\ calls (handle remote ev w)
     = calls w ++ [(summary_request o (m :: ms),
                    remote (calls w) (summary_request o (m :: ms)))].
Proof.
  intros Hr He Hm Ho Hev. destruct w as [s cs pg]. cbn [session calls] in *.
  rewrite (ended_view remote ev s cs pg m ms o Hr He Hm Ho Hev). split; reflexivity.
Qed.

Lemma summary_requested_witness :
  session (handle hello NoEvent closed_world) = session closed_world
  /\ calls (handle hello NoEvent closed_world)
     = calls closed_world
       ++ [(summary_request "sk-valid" greeting,
            hello (calls closed_world) (summary_request "sk-valid" greeting))].
Proof.
  apply (summary_requested_on_every_run hello closed_world NoEvent
           (Message "user" "Hello") [Message "assistant" "Hi!"] "sk-valid").
  - apply closed_world_reachable.
  - reflexivity.
  - reflexivity.
  - reflexivity.
  - reflexivity.
Defined.

(** X16. When the summary request fails, the page shows the history, the
    banner and the error with the remote text, and neither a summary nor a
    sentiment. *)
Theorem summary_failure_is_shown remote w ev m ms o e :
  reachable remote w ->
  conversation_ended (session w) = Some true ->
  messages (session w) = Some (m :: ms) ->
  openai_api_key (session w) = Some o ->
  button_new ev = false ->
  remote (calls w) (summary_request o (m :: ms)) = Response (NoText e)
  \/ remote (calls w) (summary_request o (m :: ms)) = InvalidArgument e
  \/ remote (calls w) (summary_request o (m :: ms)) = OtherException e ->
  page (handle remote ev w)
  = chat_page (m :: ms)
    ++ [ended_banner; st_error ("Error generating summary: " +++ e)].
Proof.
  intros Hr He Hm Ho Hev Hreq. destruct w as [s cs pg]. cbn [session calls] in *.
  rewrite (ended_view remote ev s cs pg m ms o Hr He Hm Ho Hev). cbn [page].
  destruct Hreq as [-> | [-> | ->]]; reflexivity.
Qed.

Lemma summary_failure_witness :
  page (handle summary_down NoEvent (told summary_down))
  = chat_page greeting
    ++ [ended_banner; st_error ("Error generating summary: " +++ "503 unavailable")].
Proof.
  apply (summary_failure_is_shown summary_down (told summary_down) NoEvent
           (Message "user" "Hello") [Message "assistant" "Hi!"] "sk-valid"
           "503 unavailable").
  - apply told_reachable.
  - reflexivity.
  - reflexivity.
  - reflexivity.
  - reflexivity.
  - right. right. reflexivity.
Defined.

(** X17. A reply without the marker is shown whole, trimmed, as the
    summary, with the sentiment "Neutral" and the neutral face, when it is
    not blank. *)
Theorem summary_without_marker_is_neutral remote w ev m ms o result :
  reachable remote w ->
  conversation_ended (session w) = Some true ->
  messages (session w) = Some (m :: ms) ->
  openai_api_key (session w) = Some o ->
  button_new ev = false ->
  remote (calls w) (summary_request o (m :: ms)) = Response (Txt result) ->
  contains marker result = false ->
  truthy (strip result) = true ->
  page (handle remote ev w)
  = chat_page (m :: ms)
    ++ [ended_banner; st_summary (strip result); st_sentiment NeutralFace "Neutral"].
Proof.
  intros Hr He Hm Ho Hev Hreq Hc Ht. destruct w as [s cs pg]. cbn [session calls] in *.
  rewrite (ended_view remote ev s cs pg m ms o Hr He Hm Ho Hev). cbn [page].
  rewrite Hreq. cbn [summary_errors parse_reply]. rewrite Hc.
  cbn [summary_display]. rewrite Ht. reflexivity.
Qed.

Lemma summary_without_marker_witness :
  page (handle plain NoEvent (told plain))
  = chat_page greeting
    ++ [ended_banner; st_summary (strip " They greeted each other. ");
        st_sentiment NeutralFace "Neutral"].
Proof.
  apply (summary_without_marker_is_neutral plain (told plain) NoEvent
           (Message "user" "Hello") [Message "assistant" "Hi!"] "sk-valid"
           " They greeted each other. ").
  - apply told_reachable.
  - reflexivity.
  - reflexivity.
  - reflexivity.
  - reflexivity.
  - reflexivity.
  - reflexivity.
  - reflexivity.
Defined.

(** X18. A reply with one marker is shown as the trimmed text before the
    marker and the trimmed text after it, with the face of that text; when
    either of the two is blank the page shows neither, and no error. *)
Theorem summary_with_marker_view remote w ev m ms o result before after :
  reachable remote w ->
  conversation_ended (session w) = Some true ->
  messages (session w) = Some (m :: ms) ->
  openai_api_key (session w) = Some o ->
  button_new ev = false ->
  remote (calls w) (summary_request o (m :: ms)) = Response (Txt result) ->
  split result marker = [before; after] ->
  page (handle remote ev w)
  = chat_page (m :: ms)
    ++ [ended_banner]
    ++ (if truthy (strip before) && truthy (strip after)
        then [st_summary (strip before);
              st_sentiment (face_of (strip after)) (strip after)]
        else []).
Proof.
  intros Hr He Hm Ho Hev Hreq Hs. destruct w as [s cs pg]. cbn [session calls] in *.
  rewrite (ended_view remote ev s cs pg m ms o Hr He Hm Ho Hev). cbn [page].
  rewrite Hreq. cbn [summary_errors parse_reply].
  destruct (contains marker result) eqn:Hc.
  - rewrite Hs. reflexivity.
  - rewrite (contains_single_piece marker result ltac:(discriminate) Hc) in Hs.
    discriminate Hs.
Qed.

Lemma summary_with_marker_witness :
  page (handle labelled NoEvent (told labelled))
  = chat_page greeting
    ++ [ended_banner]
    ++ (if truthy (strip "They greeted each other. ") && truthy (strip " Positive")
        then [st_summary (strip "They greeted each other. ");
              st_sentiment (face_of (strip " Positive")) (strip " Positive")]
        else []).
Proof.
  apply (summary_with_marker_view labelled (told labelled) NoEvent
           (Message "user" "Hello") [Message "assistant" "Hi!"] "sk-valid"
           "They greeted each other. Sentiment: Positive").
  - apply told_reachable.
  - reflexivity.
  - reflexivity.
  - reflexivity.
  - reflexivity.
  - reflexivity.
  - reflexivity.
Defined.

(** X19. "Start New Conversation" on a history that is not empty first
    requests a summary, which no page shows, and then opens an empty chat
    with the keys kept. *)
Theorem start_new_requests_unshown_summary remote w m ms o :
  reachable remote w ->
  conversation_ended (session w) = Some true ->
  messages (session w) = Some (m :: ms) ->
  openai_api_key (session w) = Some o ->
  handle remote StartNewConversation w
  = mkWorld (set_conversation_ended false (set_messages [] (session w)))
      (calls w ++ [(summary_request o (m :: ms),
                    remote (calls w) (summary_request o (m :: ms)))])
      [].
Proof.
  intros Hr He Hm Ho. destruct w as [s cs pg]. cbn [session calls] in *.
  destruct (reachable_ended remote s cs pg Hr He) as (h & g & o' & ->).
  cbn in Hm, Ho. inversion Hm; subst h. inversion Ho; subst o'.
  exact (handle_start_new_exact remote (m :: ms) g o cs pg).
Qed.

Lemma start_new_unshown_witness :
  handle hello StartNewConversation closed_world
  = mkWorld (set_conversation_ended false (set_messages [] (session closed_world)))
      (calls closed_world
       ++ [(summary_request "sk-valid" greeting,
            hello (calls closed_world) (summary_request "sk-valid" greeting))])
      [].
Proof.
  apply (start_new_requests_unshown_summary hello closed_world
           (Message "user" "Hello") [Message "assistant" "Hi!"] "sk-valid").
  - apply closed_world_reachable.
  - reflexivity.
  - reflexivity.
  - reflexivity.
Defined.

(** *** The summary function *)

(** X20. Whenever the reply has the marker a second time after the first,
    the summary function returns [(None, None)] and reports the unpacking
    error as a failed summary; the request is in the log all the same. *)
Theorem second_marker_always_fails remote key w m ms result before after :
  messages (session w) = Some (m :: ms) ->
  remote (calls w) (summary_request key (m :: ms)) = Response (Txt result) ->
  partition marker result = Some (before, after) ->
  contains marker after = true ->
  result = before +++ marker +++ after
  /\ generate_summary_and_sentiment remote key w
     = (Ok (None, None),
        mkWorld (session w)
          (calls w ++ [(summary_request key (m :: ms), Response (Txt result))])
          (page w ++ [st_error "Error generating summary: too many values to unpack (expected 2)"])).
Proof.
  intros Hm Hr Hp Hc. split; [exact (partition_app marker result before after Hp)|].
  destruct w as [[h e b gk ok] cs pg]. cbn [session calls page messages] in *. subst h.
  rewrite (generate_summary_exact remote key (m :: ms) m ms gk ok e b cs pg eq_refl).
  rewrite Hr. cbn [parse_reply summary_errors].
  rewrite contains_partition, Hp.
  destruct (split_second_marker result before after Hp Hc) as (a & b' & c & l & ->).
  reflexivity.
Qed.

Lemma second_marker_witness :
  twice = "Good talk. " +++ marker +++ " Positive. Sentiment: Negative"
  /\ generate_summary_and_sentiment (always twice) "sk-valid" ended_world
     = (Ok (None, None),
        mkWorld (session ended_world)
          (calls ended_world
           ++ [(summary_request "sk-valid" hi_hello, Response (Txt twice))])
          (page ended_world
           ++ [st_error "Error generating summary: too many values to unpack (expected 2)"])).
Proof.
  apply (second_marker_always_fails (always twice) "sk-valid" ended_world
           (Message "user" "hi") [Message "assistant" "hello"] twice
           "Good talk. " " Positive. Sentiment: Negative").
  - reflexivity.
  - reflexivity.
  - reflexivity.
  - reflexivity.
Defined.

(** X21. When the reply has the marker exactly once, the summary function
    returns the trimmed text before it and the trimmed text after it, and
    writes nothing on the page. *)
Theorem single_marker_is_parsed remote key w m ms result before after :
  messages (session w) = Some (m :: ms) ->
  remote (calls w) (summary_request key (m :: ms)) = Response (Txt result) ->
  partition marker result = Some (before, after) ->
  contains marker after = false ->
  result = before +++ marker +++ after
  /\ generate_summary_and_sentiment remote key w
     = (Ok (Some (strip before), Some (strip after)),
        mkWorld (session w)
          (calls w ++ [(summary_request key (m :: ms), Response (Txt result))])
          (page w)).
Proof.
  intros Hm Hr Hp Hc. split; [exact (partition_app marker result before after Hp)|].
  destruct w as [[h e b gk ok] cs pg]. cbn [session calls page messages] in *. subst h.
  rewrite (generate_summary_exact remote key (m :: ms) m ms gk ok e b cs pg eq_refl).
  rewrite Hr. cbn [parse_reply summary_errors].
  rewrite contains_partition, Hp.
  assert (Hs : split result marker = [before; after]).
  { unfold split. rewrite split_from_partition, Hp by discriminate.
    rewrite (contains_single_piece marker after ltac:(discriminate) Hc). reflexivity. }
  rewrite Hs, app_nil_r. reflexivity.
Qed.

Lemma single_marker_witness :
  "Fine. Sentiment: Mixed" = "Fine. " +++ marker +++ " Mixed"
  /\ generate_summary_and_sentiment mixed "sk-valid" ended_world
     = (Ok (Some (strip "Fine. "), Some (strip " Mixed")),
        mkWorld (session ended_world)
          (calls ended_world
           ++ [(summary_request "sk-valid" hi_hello,
                Response (Txt "Fine. Sentiment: Mixed"))])
          (page ended_world)).
Proof.
  apply (single_marker_is_parsed mixed "sk-valid" ended_world
           (Message "user" "hi") [Message "assistant" "hello"]
           "Fine. Sentiment: Mixed" "Fine. " " Mixed").
  - reflexivity.
  - reflexivity.
  - reflexivity.
  - reflexivity.
Defined.

(** X22. A summary and a sentiment that the summary function returns have
    no white space around them. *)
Theorem summary_outputs_are_trimmed remote key w summary sentiment w' :
  generate_summary_and_sentiment remote key w = (Ok (Some summary, Some sentiment), w') ->
  strip summary = summary /\ strip sentiment = sentiment.
Proof.
  intros H. destruct (messages (session w)) as [[|m ms]|] eqn:Hm.
  - unfold generate_summary_and_sentiment in H. unfold attr at 1 in H.
    unfold bind at 1 in H. rewrite Hm in H. inversion H; subst. split; reflexivity.
  - destruct (generate_summary_nonempty remote key w m ms Hm) as [out Heq].
    rewrite Heq in H. clear Heq.
    destruct (remote (calls w) (summary_request key (m :: ms))) as [[result|x]|x|x];
      try discriminate H.
    cbn [parse_reply] in H. destruct (contains marker result).
    + destruct (split result marker) as [|a [|b [|c l]]]; try discriminate H.
      inversion H; subst. split; apply strip_idempotent.
    + inversion H; subst. split; [apply strip_idempotent | reflexivity].
  - unfold generate_summary_and_sentiment in H. unfold attr at 1 in H.
    unfold bind at 1 in H. rewrite Hm in H. discriminate H.
Qed.

Lemma summary_outputs_witness :
  strip "Fine." = "Fine." /\ strip "Mixed" = "Mixed".
Proof.
  apply (summary_outputs_are_trimmed mixed "sk-valid" ended_world "Fine." "Mixed"
           (snd (generate_summary_and_sentiment mixed "sk-valid" ended_world))).
  vm_compute. reflexivity.
Defined.
